(** * tpm2_luks: a shallow embedding of the TPM2 + LUKS2 key-sealing tool

    Sources: [src/root_files/usr/src/crypt/tpm2_luks/src/{main,luks,tpm}.rs].

    The repository's own code (the [setup] and [unlock] workflows,
    [derive_key], [compute_hmac], [read_password], [main], the LUKS2 token
    store/load helpers and the TPM wrappers) is translated function by
    function.  The crates it calls are modelled by their observable
    contracts:
    - [base64] (STANDARD engine, canonical padding) is implemented in full;
    - the Argon2 input checks of [Argon2::hash_password_into] are written out,
      the hash itself is an abstract function of the right length;
    - HMAC-SHA-256 is an abstract function with a 32-byte output;
    - the TPM is a state (presence, owner seed, RNG stream, dictionary-attack
      counter); sealed objects are produced by an abstract wrapping function
      that the TPM can load back under the same owner seed;
    - a LUKS2 container is a header with keyslots (passphrases) and JSON
      tokens; device-mapper activations are a map from names to devices. *)

From Stdlib Require Import Strings.Byte Strings.Ascii Strings.String.
From stdpp Require Import base gmap strings list fin_maps.

Open Scope list_scope.
Set Warnings "-register-all".

(* ================================================================== *)
(** ** base64 (STANDARD alphabet, padded, canonical decoding) *)

Module Base64.

(** A 6-bit group, most significant bit first. *)
Record sextet := Sx { s5 : bool; s4 : bool; s3 : bool; s2 : bool; s1 : bool; s0 : bool }.

Definition sextet_val (q : sextet) : nat :=
  32 * Nat.b2n (s5 q) + 16 * Nat.b2n (s4 q) + 8 * Nat.b2n (s3 q)
  + 4 * Nat.b2n (s2 q) + 2 * Nat.b2n (s1 q) + Nat.b2n (s0 q).

Definition sextet_of_nat (n : nat) : sextet :=
  Sx (Nat.testbit n 5) (Nat.testbit n 4) (Nat.testbit n 3)
     (Nat.testbit n 2) (Nat.testbit n 1) (Nat.testbit n 0).

Definition alphabet : string :=
  "ABCDEFGHIJKLMNOPQRSTUVWXYZabcdefghijklmnopqrstuvwxyz0123456789+/".

Definition pad : Ascii.ascii := "="%char.

(** Encoding of one 6-bit group. *)
Definition enc_char (q : sextet) : Ascii.ascii :=
  match String.get (sextet_val q) alphabet with
  | Some c => c
  | None => pad
  end.

(** Decoding of one symbol; [None] outside the alphabet (also for ['=']). *)
Definition dec_char (c : Ascii.ascii) : option sextet :=
  let n := Ascii.nat_of_ascii c in
  if (65 <=? n) && (n <=? 90) then Some (sextet_of_nat (n - 65))
  else if (97 <=? n) && (n <=? 122) then Some (sextet_of_nat (n - 71))
  else if (48 <=? n) && (n <=? 57) then Some (sextet_of_nat (n + 4))
  else if n =? 43 then Some (sextet_of_nat 62)
  else if n =? 47 then Some (sextet_of_nat 63)
  else None.

(** The four groups of a 3-byte block. *)
Definition split3 (a b c : byte) : sextet * sextet * sextet * sextet :=
  let '(a0, (a1, (a2, (a3, (a4, (a5, (a6, a7))))))) := Byte.to_bits a in
  let '(b0, (b1, (b2, (b3, (b4, (b5, (b6, b7))))))) := Byte.to_bits b in
  let '(c0, (c1, (c2, (c3, (c4, (c5, (c6, c7))))))) := Byte.to_bits c in
  (Sx a7 a6 a5 a4 a3 a2, Sx a1 a0 b7 b6 b5 b4,
   Sx b3 b2 b1 b0 c7 c6, Sx c5 c4 c3 c2 c1 c0).

(** The three bytes carried by four groups. *)
Definition byte1 (q1 q2 : sextet) : byte :=
  Byte.of_bits (s4 q2, (s5 q2, (s0 q1, (s1 q1, (s2 q1, (s3 q1, (s4 q1, s5 q1))))))).
Definition byte2 (q2 q3 : sextet) : byte :=
  Byte.of_bits (s2 q3, (s3 q3, (s4 q3, (s5 q3, (s0 q2, (s1 q2, (s2 q2, s3 q2))))))).
Definition byte3 (q3 q4 : sextet) : byte :=
  Byte.of_bits (s0 q4, (s1 q4, (s2 q4, (s3 q4, (s4 q4, (s5 q4, (s0 q3, s1 q3))))))).

Definition str4 (c1 c2 c3 c4 : Ascii.ascii) (rest : string) : string :=
  String c1 (String c2 (String c3 (String c4 rest))).

(** [BASE64.encode]: full blocks, then a padded tail of one or two bytes. *)
Fixpoint encode (l : list byte) : string :=
  match l with
  | a :: b :: c :: rest =>
      let '(q1, q2, q3, q4) := split3 a b c in
      str4 (enc_char q1) (enc_char q2) (enc_char q3) (enc_char q4) (encode rest)
  | [a; b] =>
      let '(q1, q2, q3, _) := split3 a b Byte.x00 in
      str4 (enc_char q1) (enc_char q2) (enc_char q3) pad EmptyString
  | [a] =>
      let '(q1, q2, _, _) := split3 a Byte.x00 Byte.x00 in
      str4 (enc_char q1) (enc_char q2) pad pad EmptyString
  | [] => EmptyString
  end.

Definition is_empty (s : string) : bool :=
  match s with EmptyString => true | _ => false end.

(** [BASE64.decode]: length a multiple of 4, padding only at the very end,
    and the unused low bits of the last group must be zero. *)
Fixpoint decode (s : string) : option (list byte) :=
  match s with
  | EmptyString => Some []
  | String c1 (String c2 (String c3 (String c4 rest))) =>
      match dec_char c1, dec_char c2 with
      | Some q1, Some q2 =>
          if Ascii.eqb c3 pad && Ascii.eqb c4 pad then
            if is_empty rest && negb (s3 q2) && negb (s2 q2) && negb (s1 q2) && negb (s0 q2)
            then Some [byte1 q1 q2] else None
          else
            match dec_char c3 with
            | Some q3 =>
                if Ascii.eqb c4 pad then
                  if is_empty rest && negb (s1 q3) && negb (s0 q3)
                  then Some [byte1 q1 q2; byte2 q2 q3] else None
                else
                  match dec_char c4, decode rest with
                  | Some q4, Some r => Some (byte1 q1 q2 :: byte2 q2 q3 :: byte3 q3 q4 :: r)
                  | _, _ => None
                  end
            | None => None
            end
      | _, _ => None
      end
  | _ => None
  end.

Lemma dec_enc_char (q : sextet) : dec_char (enc_char q) = Some q.
Proof. destruct q as [[] [] [] [] [] []]; reflexivity. Qed.

Lemma enc_char_not_pad (q : sextet) : Ascii.eqb (enc_char q) pad = false.
Proof. destruct q as [[] [] [] [] [] []]; reflexivity. Qed.

Lemma split3_bytes (a b c : byte) :
  let '(q1, q2, q3, q4) := split3 a b c in
  byte1 q1 q2 = a /\ byte2 q2 q3 = b /\ byte3 q3 q4 = c.
Proof.
  unfold split3.
  rewrite <- (Byte.of_bits_to_bits a), <- (Byte.of_bits_to_bits b),
          <- (Byte.of_bits_to_bits c).
  rewrite !Byte.to_bits_of_bits.
  destruct (Byte.to_bits a) as (? & ? & ? & ? & ? & ? & ? & ?).
  destruct (Byte.to_bits b) as (? & ? & ? & ? & ? & ? & ? & ?).
  destruct (Byte.to_bits c) as (? & ? & ? & ? & ? & ? & ? & ?).
  repeat split.
Qed.

Lemma tail2_bytes (a b : byte) :
  let '(q1, q2, q3, _) := split3 a b Byte.x00 in
  s1 q3 = false /\ s0 q3 = false /\ byte1 q1 q2 = a /\ byte2 q2 q3 = b.
Proof.
  unfold split3.
  rewrite <- (Byte.of_bits_to_bits a), <- (Byte.of_bits_to_bits b).
  rewrite !Byte.to_bits_of_bits.
  destruct (Byte.to_bits a) as (? & ? & ? & ? & ? & ? & ? & ?).
  destruct (Byte.to_bits b) as (? & ? & ? & ? & ? & ? & ? & ?).
  repeat split.
Qed.

Lemma tail1_bytes (a : byte) :
  let '(q1, q2, _, _) := split3 a Byte.x00 Byte.x00 in
  s3 q2 = false /\ s2 q2 = false /\ s1 q2 = false /\ s0 q2 = false /\ byte1 q1 q2 = a.
Proof.
  unfold split3.
  rewrite <- (Byte.of_bits_to_bits a), !Byte.to_bits_of_bits.
  destruct (Byte.to_bits a) as (? & ? & ? & ? & ? & ? & ? & ?).
  repeat split.
Qed.

(** Decoding inverts encoding, for every byte string. *)
Lemma decode_encode (l : list byte) : decode (encode l) = Some l.
Proof.
  remember (length l) as n eqn:Hn.
  revert l Hn; induction n as [n IH] using lt_wf_ind; intros l Hn.
  destruct l as [|a [|b [|c rest]]].
  - reflexivity.
  - cbn [encode]. pose proof (tail1_bytes a) as Ht.
    destruct (split3 a Byte.x00 Byte.x00) as [[[q1 q2] q3] q4].
    destruct Ht as (H3 & H2 & H1 & H0 & Ha).
    cbn [decode str4]. rewrite !dec_enc_char, H3, H2, H1, H0, Ha. reflexivity.
  - cbn [encode]. pose proof (tail2_bytes a b) as Ht.
    destruct (split3 a b Byte.x00) as [[[q1 q2] q3] q4].
    destruct Ht as (Hs1 & Hs0 & Ha & Hb).
    cbn [decode str4]. rewrite !dec_enc_char, enc_char_not_pad, Hs1, Hs0, Ha, Hb.
    reflexivity.
  - cbn [encode]. pose proof (split3_bytes a b c) as Ht.
    destruct (split3 a b c) as [[[q1 q2] q3] q4].
    destruct Ht as (Ha & Hb & Hc).
    cbn [decode str4]. rewrite !dec_enc_char, !enc_char_not_pad, Ha, Hb, Hc.
    rewrite (IH (length rest)) by (cbn in Hn; lia || reflexivity).
    reflexivity.
Qed.

End Base64.

Global Instance byte_eq_decision : EqDecision byte := Byte.byte_eq_dec.

(* ================================================================== *)
(** ** JSON values ([serde_json::Value]) *)

Inductive json :=
| JNull
| JBool (b : bool)
| JNum (n : Z)
| JStr (s : string)
| JArr (l : list json)
| JObj (fields : list (string * json)).

(** [value[key]]: the field of an object, [Null] for a missing key or a
    non-object (serde_json's [Index] for [&str]).  Object keys are unique. *)
Definition json_index (v : json) (key : string) : json :=
  match v with
  | JObj fs =>
      match List.find (fun kv => String.eqb (fst kv) key) fs with
      | Some (_, x) => x
      | None => JNull
      end
  | _ => JNull
  end.

Definition as_str (v : json) : option string :=
  match v with JStr s => Some s | _ => None end.

(** The record written by [luks2_store_tpm_tokens] ([json!] macro). *)
Definition token_record (token_type : string) (data : list byte) : json :=
  JObj [("type", JStr token_type); ("keyslots", JArr []);
        ("key_description", JStr (Base64.encode data))].

(* ================================================================== *)
(** ** Errors, outcomes and the program monad *)

Inductive error :=
| TpmUnavailable          (* Context::new / TCTI cannot reach the TPM *)
| TpmLoadFailed           (* Public::unmarshall / TPM2_Load reject the blobs *)
| TpmAuthFail             (* TPM_RC_AUTH_FAIL on TPM2_Unseal: wrong PIN *)
| TpmLockout              (* TPM_RC_LOCKOUT: dictionary-attack lockout *)
| DeviceNotFound          (* CryptInit::init *)
| NotLuks2                (* load::<()>(Some(Luks2), None) *)
| DeviceBusy              (* format of a device that is currently mapped *)
| NoFreeKeyslot           (* keyslot add with CRYPT_ANY_SLOT, all 32 used *)
| TokenInvalid            (* crypt_token_json_set rejects the token *)
| TokenMissing            (* crypt_token_json_get on an inactive token *)
| MissingKeyDescription   (* LibcryptErr::Other("missing key_description") *)
| Base64Invalid           (* LibcryptErr::Other(<base64 DecodeError>) *)
| WrongKey                (* activate_by_passphrase: no keyslot matches *)
| AlreadyActive.          (* activate_by_passphrase: name already mapped *)

(** [Ok]/[Err] of a [Result], a [panic!] (from [expect] or an index out of
    range) and [std::process::exit]. *)
Inductive outcome (A : Type) :=
| Ok (a : A)
| Err (e : error)
| Panic (msg : string)
| Exit (code : Z).
Arguments Ok {A} a.
Arguments Err {A} e.
Arguments Panic {A} msg.
Arguments Exit {A} code.

(** Observable calls of the workflows, in the order they are made. *)
Inductive event :=
| EvCreatePrimary
| EvGetRandom (requested : nat) (out : list byte)
| EvDerive (pwd salt : list byte)
| EvHmac (key data out : list byte)
| EvSeal (secret pin : list byte)
| EvUnseal (pub priv pin : list byte)
| EvFormat (dev : string) (key : list byte)
| EvStoreTokens (dev : string)
| EvLoadTokens (dev : string)
| EvOpen (dev : string) (key : list byte) (name : string).

(** The TPM: reachable or not, the owner-hierarchy seed (which determines
    the primary key), the RNG stream and its read position, the most bytes
    one TPM2_GetRandom returns, and the dictionary-attack counter. *)
Record tpm := mkTpm {
  tpm_present : bool;
  tpm_seed : Z;
  tpm_rng : nat -> byte;
  tpm_rng_pos : nat;
  tpm_max_random : nat;
  tpm_failed_tries : nat;
  tpm_max_tries : nat
}.

(** A LUKS2 header: keyslots (the passphrase each one accepts) and tokens. *)
Record luks2 := mkLuks2 {
  keyslots : gmap nat (list byte);
  tokens : gmap nat json
}.

(** Devices by path ([None]: exists but carries no LUKS2 header) and the
    active device-mapper names. *)
Record world := mkWorld {
  w_tpm : tpm;
  w_devices : gmap string (option luks2);
  w_active : gmap string string
}.

Record state := mkState { st_world : world; st_log : list event }.

Definition M (A : Type) : Type := state -> outcome A * state.

Definition ret {A} (a : A) : M A := fun s => (Ok a, s).

Definition bind {A B} (f : A -> M B) (m : M A) : M B := fun s =>
  match m s with
  | (Ok a, s') => f a s'
  | (Err e, s') => (Err e, s')
  | (Panic msg, s') => (Panic msg, s')
  | (Exit c, s') => (Exit c, s')
  end.

Global Instance M_ret : MRet M := @ret.
Global Instance M_bind : MBind M := @bind.

Definition throw {A} (e : error) : M A := fun s => (Err e, s).
Definition panic {A} (msg : string) : M A := fun s => (Panic msg, s).
Definition exit {A} (code : Z) : M A := fun s => (Exit code, s).
Definition lift {A} (r : outcome A) : M A := fun s => (r, s).

Definition emit (e : event) : M unit := fun s =>
  (Ok tt, mkState (st_world s) (st_log s ++ [e])).

Definition gets {A} (f : world -> A) : M A := fun s => (Ok (f (st_world s)), s).

Definition modify (f : world -> world) : M unit := fun s =>
  (Ok tt, mkState (f (st_world s)) (st_log s)).

Definition set_tpm (t : tpm) (w : world) : world := mkWorld t (w_devices w) (w_active w).
Definition set_devices (d : gmap string (option luks2)) (w : world) : world :=
  mkWorld (w_tpm w) d (w_active w).
Definition set_active (a : gmap string string) (w : world) : world :=
  mkWorld (w_tpm w) (w_devices w) a.

(** Running a program from a world, with an empty log. *)
Definition run {A} (m : M A) (w : world) : outcome A * state := m (mkState w []).

(* ================================================================== *)
(** ** The crates' primitives *)

(** The cryptographic and TPM functions the program consumes, with the
    contract each one gives.  [tpm_create seed auth data] is the
    (marshalled public, private) pair TPM2_Create returns for a sealed-data
    object under the primary key of [seed]; [tpm_load seed pub priv] is what
    TPM2_Load recovers from such a pair (its authValue and data), [None]
    when the pair does not load under that primary key. *)
Record prims := mkPrims {
  argon2_raw : list byte -> list byte -> nat -> list byte;
  argon2_raw_length : forall pwd salt n, length (argon2_raw pwd salt n) = n;
  hmac_sha256 : list byte -> list byte -> list byte;
  hmac_sha256_length : forall key data, length (hmac_sha256 key data) = 32;
  tpm_create : Z -> list byte -> list byte -> list byte * list byte;
  tpm_load : Z -> list byte -> list byte -> option (list byte * list byte);
  tpm_load_create : forall seed auth data,
    tpm_load seed (tpm_create seed auth data).1 (tpm_create seed auth data).2
    = Some (auth, data)
}.

(** Errors of [Argon2::hash_password_into] (argon2 0.5, default params). *)
Inductive argon2_error :=
| OutputTooShort | OutputTooLong | PwdTooLong | SaltTooShort | SaltTooLong.

Definition argon2_max_len : N := 4294967295.  (* 0xFFFF_FFFF *)
Definition argon2_min_salt_len : N := 8.
Definition argon2_min_output_len : N := 4.

(** [Argon2::default().hash_password_into(pwd, salt, &mut [0u8; out_len])]:
    output length checks, then [verify_inputs] (password and salt lengths),
    then the hash fills the buffer. *)
Definition argon2_hash_password_into (P : prims) (pwd salt : list byte) (out_len : nat)
  : argon2_error + list byte :=
  let ol := N.of_nat out_len in
  if (ol <? argon2_min_output_len)%N then inl OutputTooShort
  else if (argon2_max_len <? ol)%N then inl OutputTooLong
  else if (argon2_max_len <? N.of_nat (length pwd))%N then inl PwdTooLong
  else if (N.of_nat (length salt) <? argon2_min_salt_len)%N then inl SaltTooShort
  else if (argon2_max_len <? N.of_nat (length salt))%N then inl SaltTooLong
  else inr (argon2_raw P pwd salt out_len).

(* ================================================================== *)
(** ** Rust strings *)

(** A [&str]/[String] as its sequence of Unicode scalar values. *)
Definition rstr := list Z.

Definition byte_of_Z (z : Z) : byte :=
  match Byte.of_N (Z.to_N z) with Some b => b | None => Byte.x00 end.

(** UTF-8 encoding of one scalar value. *)
Definition utf8_char (c : Z) : list byte :=
  if (c <? 128)%Z then [byte_of_Z c]
  else if (c <? 2048)%Z then
    [byte_of_Z (Z.lor 192 (Z.shiftr c 6)); byte_of_Z (Z.lor 128 (Z.land c 63))]
  else if (c <? 65536)%Z then
    [byte_of_Z (Z.lor 224 (Z.shiftr c 12));
     byte_of_Z (Z.lor 128 (Z.land (Z.shiftr c 6) 63));
     byte_of_Z (Z.lor 128 (Z.land c 63))]
  else
    [byte_of_Z (Z.lor 240 (Z.shiftr c 18));
     byte_of_Z (Z.lor 128 (Z.land (Z.shiftr c 12) 63));
     byte_of_Z (Z.lor 128 (Z.land (Z.shiftr c 6) 63));
     byte_of_Z (Z.lor 128 (Z.land c 63))].

(** [str::as_bytes]. *)
Definition as_bytes (s : rstr) : list byte := List.flat_map utf8_char s.

(** [char::is_whitespace]: the Unicode White_Space property. *)
Definition is_whitespace (c : Z) : bool :=
  ((9 <=? c) && (c <=? 13))%Z || (c =? 32)%Z || (c =? 133)%Z || (c =? 160)%Z
  || (c =? 5760)%Z || ((8192 <=? c) && (c <=? 8202))%Z
  || (c =? 8232)%Z || (c =? 8233)%Z || (c =? 8239)%Z || (c =? 8287)%Z
  || (c =? 12288)%Z.

Fixpoint trim_start (s : rstr) : rstr :=
  match s with
  | c :: rest => if is_whitespace c then trim_start rest else s
  | [] => []
  end.

Definition trim_end (s : rstr) : rstr := List.rev (trim_start (List.rev s)).

(** [str::trim]. *)
Definition trim (s : rstr) : rstr := trim_end (trim_start s).

(* ================================================================== *)
(** ** The program *)

Section Program.
Context (P : prims).

(** *** tpm.rs *)

(** [create_primary]: open the TCTI context, then TPM2_CreatePrimary under
    the owner hierarchy with the fixed RSA-2048 storage template.  The
    primary key is a function of the owner seed, so its handle is modelled
    by that seed. *)
Definition create_primary : M Z :=
  emit EvCreatePrimary ;;
  t ← gets w_tpm;
  if tpm_present t then mret (tpm_seed t) else throw TpmUnavailable.

(** [tpm_random_bytes]: one TPM2_GetRandom, which returns at most
    [tpm_max_random] bytes. *)
Definition tpm_random_bytes (len : nat) : M (list byte) :=
  t ← gets w_tpm;
  let n := Nat.min len (tpm_max_random t) in
  let out := map (tpm_rng t) (seq (tpm_rng_pos t) n) in
  modify (set_tpm (mkTpm (tpm_present t) (tpm_seed t) (tpm_rng t)
                         (tpm_rng_pos t + n) (tpm_max_random t)
                         (tpm_failed_tries t) (tpm_max_tries t))) ;;
  emit (EvGetRandom len out) ;;
  mret out.

(** [seal_secret]: TPM2_Create of a keyed-hash sealed object with
    authValue [pin] and sensitive data [secret].  TPM2_Create authorises the
    parent, the primary key, whose template leaves [noDA] clear: the parent is
    dictionary-attack protected, so in lockout the TPM refuses the command
    (without counting a failure). *)
Definition seal_secret (primary : Z) (secret pin : list byte)
  : M (list byte * list byte) :=
  emit (EvSeal secret pin) ;;
  t ← gets w_tpm;
  if (tpm_max_tries t <=? tpm_failed_tries t)%nat then throw TpmLockout
  else mret (tpm_create P primary pin secret).

(** [unseal_secret]: TPM2_Load of the pair, then TPM2_Unseal authorised with
    [pin].  The object is dictionary-attack protected ([noDA] clear): in
    lockout the TPM refuses, and a wrong PIN counts one failure. *)
Definition unseal_secret (primary : Z) (pub_bytes priv_bytes pin : list byte)
  : M (list byte) :=
  emit (EvUnseal pub_bytes priv_bytes pin) ;;
  match tpm_load P primary pub_bytes priv_bytes with
  | None => throw TpmLoadFailed
  | Some (auth, data) =>
      t ← gets w_tpm;
      if (tpm_max_tries t <=? tpm_failed_tries t)%nat then throw TpmLockout
      else if bool_decide (pin = auth) then mret data
      else
        modify (set_tpm (mkTpm (tpm_present t) (tpm_seed t) (tpm_rng t)
                               (tpm_rng_pos t) (tpm_max_random t)
                               (S (tpm_failed_tries t)) (tpm_max_tries t))) ;;
        throw TpmAuthFail
  end.

(** *** luks.rs *)

(** [CryptInit::init(dev)]. *)
Definition crypt_init (dev : string) : M (option luks2) :=
  d ← gets w_devices;
  match d !! dev with Some h => mret h | None => throw DeviceNotFound end.

(** [CryptInit::init(dev)] followed by [load::<()>(Some(Luks2), None)]. *)
Definition crypt_load (dev : string) : M luks2 :=
  h ← crypt_init dev;
  match h with Some hdr => mret hdr | None => throw NotLuks2 end.

Definition put_header (dev : string) (h : luks2) : M unit :=
  modify (fun w => set_devices (<[dev := Some h]> (w_devices w)) w).

(** Whether a device-mapper mapping sits on [dev]: [w_active] maps each
    active name to the path it was opened on, taken to be the block device
    the mapping's target holds (an exclusive open of that device then fails
    with -EBUSY). *)
Definition device_is_active (a : gmap string string) (dev : string) : bool :=
  existsb (fun kv => String.eqb kv.2 dev) (map_to_list a).

Definition luks2_keyslots_max : nat := 32.
Definition luks2_tokens_max : nat := 32.

(** CRYPT_ANY_SLOT: the lowest free keyslot. *)
Definition free_keyslot (ks : gmap nat (list byte)) : option nat :=
  List.find (fun i => bool_decide (ks !! i = None)) (seq 0 luks2_keyslots_max).

(** [keyslot_handle().add_by_key(None, None, key_data, ..)]: a new keyslot,
    opened by the passphrase [key_data], at the lowest free slot. *)
Definition keyslot_add_by_key (dev : string) (key_data : list byte) : M nat :=
  h ← crypt_load dev;
  match free_keyslot (keyslots h) with
  | None => throw NoFreeKeyslot
  | Some i => put_header dev (mkLuks2 (<[i := key_data]> (keyslots h)) (tokens h)) ;; mret i
  end.

(** [luks_format]: a fresh LUKS2 header (aes-xts-plain, 256-bit volume key;
    no keyslots, no tokens), then [key_data] added as a keyslot. *)
Definition luks_format (dev : string) (key_data : list byte) : M nat :=
  emit (EvFormat dev key_data) ;;
  _ ← crypt_init dev;
  a ← gets w_active;
  if device_is_active a dev then throw DeviceBusy
  else
    put_header dev (mkLuks2 ∅ ∅) ;;
    keyslot_add_by_key dev key_data.

(** The checks of [crypt_token_json_set] on a token object. *)
Definition token_valid (v : json) : bool :=
  match as_str (json_index v "type"), json_index v "keyslots" with
  | Some _, JArr _ => true
  | _, _ => false
  end.

(** [token_handle().json_set(TokenInput::ReplaceToken(id, &value))]. *)
Definition token_json_set (dev : string) (id : nat) (value : json) : M unit :=
  h ← crypt_load dev;
  if (id <? luks2_tokens_max)%nat && token_valid value
  then put_header dev (mkLuks2 (keyslots h) (<[id := value]> (tokens h)))
  else throw TokenInvalid.

Fixpoint for_each {A} (f : A -> M unit) (l : list A) : M unit :=
  match l with
  | [] => mret tt
  | x :: rest => f x ;; for_each f rest
  end.

(** [luks2_store_tpm_tokens]: slots 1, 2, 3. *)
Definition luks2_store_tpm_tokens (dev : string) (salt pub_bytes priv_bytes : list byte)
  : M unit :=
  emit (EvStoreTokens dev) ;;
  _ ← crypt_load dev;
  let tokens := [(1, "user.salt", salt); (2, "user.obj_pub", pub_bytes);
                 (3, "user.obj_priv", priv_bytes)] in
  for_each (fun '(id, token_type, data) =>
              token_json_set dev id (token_record token_type data)) tokens.

(** [read_token]: [json_get(id)], then the string [key_description],
    base64-decoded. *)
Definition read_token (h : luks2) (id : nat) : outcome (list byte) :=
  match tokens h !! id with
  | None => Err TokenMissing
  | Some json =>
      match as_str (json_index json "key_description") with
      | None => Err MissingKeyDescription
      | Some encoded =>
          match Base64.decode encoded with
          | Some data => Ok data
          | None => Err Base64Invalid
          end
      end
  end.

(** [luks2_load_tpm_tokens]: slots 1, 2, 3. *)
Definition luks2_load_tpm_tokens (dev : string) : M (list byte * list byte * list byte) :=
  emit (EvLoadTokens dev) ;;
  h ← crypt_load dev;
  salt ← lift (read_token h 1);
  pub_bytes ← lift (read_token h 2);
  priv_bytes ← lift (read_token h 3);
  mret (salt, pub_bytes, priv_bytes).

(** [luks_open]: activate [dev] under [name] with passphrase [final_key].
    [crypt_activate_by_passphrase] first refuses a [name] that is already an
    active mapping (-EEXIST), then tries the keyslots with the passphrase
    (-EPERM), and the activation then opens the data device exclusively
    (-EBUSY when it is already mapped). *)
Definition luks_open (dev : string) (final_key : list byte) (name : string) : M unit :=
  emit (EvOpen dev final_key name) ;;
  h ← crypt_load dev;
  a ← gets w_active;
  match a !! name with
  | Some _ => throw AlreadyActive
  | None =>
      if negb (existsb (fun kv => bool_decide (kv.2 = final_key)) (map_to_list (keyslots h)))
      then throw WrongKey
      else if device_is_active a dev then throw DeviceBusy
      else modify (fun w => set_active (<[name := dev]> (w_active w)) w)
  end.

(** *** main.rs *)

(** [derive_key]: Argon2 into a 64-byte buffer; any Argon2 error is turned
    into a panic by [.expect("Argon2 hashing failed")]. *)
Definition derive_key (password : rstr) (salt : list byte) : M (list byte) :=
  emit (EvDerive (as_bytes password) salt) ;;
  match argon2_hash_password_into P (as_bytes password) salt 64 with
  | inr output => mret output
  | inl _ => panic "Argon2 hashing failed"
  end.

(** [compute_hmac]: HMAC-SHA-256 ([new_from_slice] accepts keys of any
    length, so its [expect] never fires). *)
Definition compute_hmac (key data : list byte) : M (list byte) :=
  let out := hmac_sha256 P key data in
  emit (EvHmac key data out) ;;
  mret out.

(** [<[u8]>::split_at(mid)], which panics when [mid] exceeds the length. *)
Definition split_at (mid : nat) (v : list byte) : M (list byte * list byte) :=
  if (length v <? mid)%nat then panic "mid > len"
  else mret (firstn mid v, skipn mid v).

(** [setup]. *)
Definition setup (password : rstr) (device : string) : M unit :=
  primary_handle ← create_primary;
  salt ← tpm_random_bytes 64;
  kdf_output ← derive_key password salt;
  '(slice_a, slice_b) ← split_at 32 kdf_output;
  secret ← tpm_random_bytes 64;
  final_key ← compute_hmac slice_a secret;
  '(sealed_pub, sealed_priv) ← seal_secret primary_handle secret slice_b;
  _ ← luks_format device final_key;
  luks2_store_tpm_tokens device salt sealed_pub sealed_priv ;;
  mret tt.

(** [unlock]; returns the final key. *)
Definition unlock (password : rstr) (device : string) : M (list byte) :=
  '(salt, pub_bytes, priv_bytes) ← luks2_load_tpm_tokens device;
  kdf_output ← derive_key password salt;
  '(slice_a, slice_b) ← split_at 32 kdf_output;
  primary_handle ← create_primary;
  secret ← unseal_secret primary_handle pub_bytes priv_bytes slice_b;
  final_key ← compute_hmac slice_a secret;
  luks_open device final_key "data" ;;
  mret final_key.

(** [read_password]: [typed] is the line [rpassword::prompt_password]
    returns. *)
Definition read_password (typed : rstr) : rstr := trim typed.

(** [main]: [args] is [std::env::args()], [typed] the prompt's answer.
    [usage(&args[0])] indexes [args], which panics when it is empty. *)
Definition main (args : list string) (typed : rstr) : M unit :=
  if negb (length args =? 3)%nat then
    match args with
    | [] => panic "index out of bounds"
    | _ => exit 1
    end
  else
    let action := nth 1 args EmptyString in
    let device := nth 2 args EmptyString in
    if String.eqb action "setup" then
      let password := read_password typed in
      setup password device
    else if String.eqb action "unlock" then
      let password := read_password typed in
      _ ← unlock password device; mret tt
    else exit 1.

End Program.

(* ================================================================== *)
(** ** A concrete environment, for executing the model *)

Module Toy.

Definition byte_sum (l : list byte) : Z :=
  fold_left (fun acc b => (acc + Z.of_N (Byte.to_N b))%Z) l 0%Z.

Definition stream (seed : Z) (n : nat) : list byte :=
  map (fun i => byte_of_Z ((seed + Z.of_nat i) mod 256)) (seq 0 n).

Lemma stream_length seed n : length (stream seed n) = n.
Proof. unfold stream. rewrite length_map, length_seq. reflexivity. Qed.

Definition load (seed : Z) (pub priv : list byte) : option (list byte * list byte) :=
  match pub with
  | b :: auth => if bool_decide (b = byte_of_Z seed) then Some (auth, priv) else None
  | [] => None
  end.

(** Toy primitives: not cryptographic, but with the contracts required. *)
Definition prims : prims.
Proof.
  refine (mkPrims
    (fun pwd salt n => stream (byte_sum pwd * 7 + byte_sum salt) n) _
    (fun key data => stream (byte_sum key + 3 * byte_sum data) 32) _
    (fun seed auth data => (byte_of_Z seed :: auth, data)) load _).
  - intros. apply stream_length.
  - intros. apply stream_length.
  - intros seed auth data. cbn. rewrite bool_decide_eq_true_2 by reflexivity. reflexivity.
Defined.

Definition tpm0 : tpm :=
  mkTpm true 7 (fun i => byte_of_Z ((Z.of_nat i * 37 + 11) mod 256)) 0 64 0 3.

Definition dev : string := "/dev/loop0".

Definition world0 : world := mkWorld tpm0 {[ dev := None ]} ∅.

(** "correct horse" and "wrong password" as scalar values. *)
Definition rs (s : string) : rstr :=
  map (fun c => Z.of_nat (Ascii.nat_of_ascii c)) (list_ascii_of_string s).

End Toy.

(* ================================================================== *)
(** ** Evaluation lemmas *)

Ltac unfold_M :=
  unfold mbind, M_bind, bind, mret, M_ret, ret, emit, gets, modify, throw, panic, lift in *;
  cbn in *.

Definition log_add (s : state) (e : event) : state := mkState (st_world s) (st_log s ++ [e]).

Ltac simpl_states :=
  cbn [st_world st_log log_add set_devices set_tpm set_active w_devices w_tpm w_active
       keyslots tokens].
Tactic Notation "simpl_states" "in" hyp(H) :=
  cbn [st_world st_log log_add set_devices set_tpm set_active w_devices w_tpm w_active
       keyslots tokens] in H.

Section Eval.
Context (P : prims).

Lemma bind_run {A B} (m : M A) (f : A -> M B) (s : state) :
  (m ≫= f) s = match m s with
               | (Ok a, s') => f a s'
               | (Err e, s') => (Err e, s')
               | (Panic msg, s') => (Panic msg, s')
               | (Exit c, s') => (Exit c, s')
               end.
Proof. reflexivity. Qed.

Lemma bind_ok {A B} (m : M A) (f : A -> M B) s a s' :
  m s = (Ok a, s') -> (m ≫= f) s = f a s'.
Proof. intros H. rewrite bind_run, H. reflexivity. Qed.

(** The bytes and the next state of one TPM2_GetRandom. *)
Definition rng_out (t : tpm) (len : nat) : list byte :=
  map (tpm_rng t) (seq (tpm_rng_pos t) (Nat.min len (tpm_max_random t))).

Definition rng_advance (t : tpm) (len : nat) : tpm :=
  mkTpm (tpm_present t) (tpm_seed t) (tpm_rng t)
        (tpm_rng_pos t + Nat.min len (tpm_max_random t)) (tpm_max_random t)
        (tpm_failed_tries t) (tpm_max_tries t).

Lemma create_primary_run s :
  create_primary s =
  (if tpm_present (w_tpm (st_world s)) then Ok (tpm_seed (w_tpm (st_world s)))
   else Err TpmUnavailable, log_add s EvCreatePrimary).
Proof. unfold create_primary. unfold_M. destruct (tpm_present _); reflexivity. Qed.

Lemma tpm_random_bytes_run len s :
  tpm_random_bytes len s =
  (Ok (rng_out (w_tpm (st_world s)) len),
   mkState (set_tpm (rng_advance (w_tpm (st_world s)) len) (st_world s))
           (st_log s ++ [EvGetRandom len (rng_out (w_tpm (st_world s)) len)])).
Proof. reflexivity. Qed.

Lemma derive_key_run password salt s :
  derive_key P password salt s =
  (match argon2_hash_password_into P (as_bytes password) salt 64 with
   | inr output => Ok output
   | inl _ => Panic "Argon2 hashing failed"
   end, log_add s (EvDerive (as_bytes password) salt)).
Proof. unfold derive_key. unfold_M. destruct (argon2_hash_password_into _ _ _ _); reflexivity. Qed.

Lemma split_at_run mid v s :
  split_at mid v s =
  (if (length v <? mid)%nat then Panic "mid > len" else Ok (firstn mid v, skipn mid v), s).
Proof. unfold split_at. destruct (_ <? _)%nat; reflexivity. Qed.

Lemma compute_hmac_run key data s :
  compute_hmac P key data s =
  (Ok (hmac_sha256 P key data), log_add s (EvHmac key data (hmac_sha256 P key data))).
Proof. reflexivity. Qed.

Lemma seal_secret_run primary secret pin s :
  seal_secret P primary secret pin s =
  (if (tpm_max_tries (w_tpm (st_world s)) <=? tpm_failed_tries (w_tpm (st_world s)))%nat
   then Err TpmLockout else Ok (tpm_create P primary pin secret),
   log_add s (EvSeal secret pin)).
Proof. unfold seal_secret. unfold_M. destruct (_ <=? _)%nat; reflexivity. Qed.

(** The dictionary-attack counter after one more failure. *)
Definition da_fail (t : tpm) : tpm :=
  mkTpm (tpm_present t) (tpm_seed t) (tpm_rng t) (tpm_rng_pos t) (tpm_max_random t)
        (S (tpm_failed_tries t)) (tpm_max_tries t).

Lemma unseal_secret_run primary pub priv pin s :
  unseal_secret P primary pub priv pin s =
  let s1 := log_add s (EvUnseal pub priv pin) in
  let t := w_tpm (st_world s) in
  match tpm_load P primary pub priv with
  | None => (Err TpmLoadFailed, s1)
  | Some (auth, data) =>
      if (tpm_max_tries t <=? tpm_failed_tries t)%nat then (Err TpmLockout, s1)
      else if bool_decide (pin = auth) then (Ok data, s1)
      else (Err TpmAuthFail, mkState (set_tpm (da_fail t) (st_world s)) (st_log s1))
  end.
Proof.
  unfold unseal_secret. unfold_M.
  destruct (tpm_load P primary pub priv) as [[auth data]|]; [|reflexivity]. cbn.
  destruct (_ <=? _)%nat; [reflexivity|].
  destruct (bool_decide _); reflexivity.
Qed.

(** What [luks2_load_tpm_tokens] reads from a world. *)
Definition load_tokens_from (w : world) (dev : string)
  : outcome (list byte * list byte * list byte) :=
  match w_devices w !! dev with
  | None => Err DeviceNotFound
  | Some None => Err NotLuks2
  | Some (Some h) =>
      match read_token h 1, read_token h 2, read_token h 3 with
      | Ok a, Ok b, Ok c => Ok (a, b, c)
      | Ok _, Ok _, Err e => Err e
      | Ok _, Err e, _ => Err e
      | Err e, _, _ => Err e
      | _, _, _ => Err TokenMissing
      end
  end.

Lemma read_token_cases h id :
  (exists d, read_token h id = Ok d) \/ (exists e, read_token h id = Err e).
Proof.
  unfold read_token.
  destruct (tokens h !! id) as [v|]; [|eauto].
  destruct (as_str _) as [x|]; [|eauto].
  destruct (Base64.decode x); eauto.
Qed.

Lemma luks2_load_tpm_tokens_run dev s :
  luks2_load_tpm_tokens dev s = (load_tokens_from (st_world s) dev, log_add s (EvLoadTokens dev)).
Proof.
  unfold luks2_load_tpm_tokens, load_tokens_from, crypt_load, crypt_init. unfold_M.
  destruct (w_devices (st_world s) !! dev) as [[h|]|]; [|reflexivity|reflexivity]. cbn.
  destruct (read_token_cases h 1) as [[a Ha]|[e Ha]]; rewrite Ha; cbn; [|reflexivity].
  destruct (read_token_cases h 2) as [[b Hb]|[e Hb]]; rewrite Hb; cbn; [|reflexivity].
  destruct (read_token_cases h 3) as [[c Hc]|[e Hc]]; rewrite Hc; reflexivity.
Qed.

Lemma crypt_load_run dev s :
  crypt_load dev s =
  (match w_devices (st_world s) !! dev with
   | Some (Some h) => Ok h
   | Some None => Err NotLuks2
   | None => Err DeviceNotFound
   end, s).
Proof.
  unfold crypt_load, crypt_init. unfold_M.
  destruct (w_devices (st_world s) !! dev) as [[h|]|]; reflexivity.
Qed.

Lemma luks_format_run dev key s :
  luks_format dev key s =
  let s1 := log_add s (EvFormat dev key) in
  match w_devices (st_world s) !! dev with
  | None => (Err DeviceNotFound, s1)
  | Some _ =>
      if device_is_active (w_active (st_world s)) dev then (Err DeviceBusy, s1)
      else (Ok 0, mkState (set_devices (<[dev := Some (mkLuks2 (<[0 := key]> ∅) ∅)]>
                                         (w_devices (st_world s))) (st_world s))
                          (st_log s1))
  end.
Proof.
  unfold luks_format, keyslot_add_by_key, crypt_load, crypt_init, put_header. unfold_M.
  destruct (w_devices (st_world s) !! dev) as [h0|]; [|reflexivity]. cbn.
  destruct (device_is_active _ _); [reflexivity|]. cbn.
  rewrite lookup_insert_eq. cbn.
  rewrite (bool_decide_eq_true_2 (@empty (gmap nat (list byte)) _ !! 0 = None))
    by apply lookup_empty.
  cbn.
  rewrite insert_insert_eq. reflexivity.
Qed.

Lemma emit_run e s : emit e s = (Ok tt, log_add s e).
Proof. reflexivity. Qed.


Lemma token_json_set_run dev id v s :
  token_json_set dev id v s =
  match w_devices (st_world s) !! dev with
  | None => (Err DeviceNotFound, s)
  | Some None => (Err NotLuks2, s)
  | Some (Some h) =>
      if (id <? luks2_tokens_max)%nat && token_valid v
      then (Ok tt, mkState (set_devices (<[dev := Some (mkLuks2 (keyslots h)
                              (<[id := v]> (tokens h)))]> (w_devices (st_world s)))
                              (st_world s)) (st_log s))
      else (Err TokenInvalid, s)
  end.
Proof.
  unfold token_json_set. rewrite bind_run, crypt_load_run.
  destruct (w_devices (st_world s) !! dev) as [[h|]|]; [|reflexivity|reflexivity].
  destruct (_ && _); reflexivity.
Qed.

Lemma token_valid_record ty data : token_valid (token_record ty data) = true.
Proof. reflexivity. Qed.

(** The three tokens [luks2_store_tpm_tokens] leaves in a header's token map. *)
Definition stored_tokens (toks : gmap nat json) (salt pub_bytes priv_bytes : list byte)
  : gmap nat json :=
  <[3 := token_record "user.obj_priv" priv_bytes]>
    (<[2 := token_record "user.obj_pub" pub_bytes]>
      (<[1 := token_record "user.salt" salt]> toks)).

Lemma luks2_store_tpm_tokens_run dev salt pub_bytes priv_bytes s :
  luks2_store_tpm_tokens dev salt pub_bytes priv_bytes s =
  let s1 := log_add s (EvStoreTokens dev) in
  match w_devices (st_world s) !! dev with
  | None => (Err DeviceNotFound, s1)
  | Some None => (Err NotLuks2, s1)
  | Some (Some h) =>
      (Ok tt, mkState (set_devices (<[dev := Some (mkLuks2 (keyslots h)
                         (stored_tokens (tokens h) salt pub_bytes priv_bytes))]>
                         (w_devices (st_world s))) (st_world s)) (st_log s1))
  end.
Proof.
  unfold luks2_store_tpm_tokens, for_each, stored_tokens.
  rewrite bind_run, emit_run. cbn beta iota.
  rewrite bind_run, crypt_load_run. simpl_states.
  destruct (w_devices (st_world s) !! dev) as [[h|]|] eqn:E; [|reflexivity|reflexivity].
  cbn beta iota zeta.
  rewrite bind_run, token_json_set_run. simpl_states. rewrite E.
  cbn beta iota zeta. rewrite token_valid_record.
  cbn beta iota zeta delta [luks2_tokens_max Nat.ltb Nat.leb andb].
  rewrite bind_run, token_json_set_run. simpl_states. rewrite lookup_insert_eq.
  cbn beta iota zeta. rewrite token_valid_record.
  cbn beta iota zeta delta [luks2_tokens_max Nat.ltb Nat.leb andb].
  rewrite bind_run, token_json_set_run. simpl_states. rewrite lookup_insert_eq.
  cbn beta iota zeta. rewrite token_valid_record.
  cbn beta iota zeta delta [luks2_tokens_max Nat.ltb Nat.leb andb].
  rewrite !insert_insert_eq. reflexivity.
Qed.

Lemma luks_open_run dev key name s :
  luks_open dev key name s =
  let s1 := log_add s (EvOpen dev key name) in
  match w_devices (st_world s) !! dev with
  | None => (Err DeviceNotFound, s1)
  | Some None => (Err NotLuks2, s1)
  | Some (Some h) =>
      match w_active (st_world s) !! name with
      | Some _ => (Err AlreadyActive, s1)
      | None =>
          if negb (existsb (fun kv => bool_decide (kv.2 = key)) (map_to_list (keyslots h)))
          then (Err WrongKey, s1)
          else if device_is_active (w_active (st_world s)) dev then (Err DeviceBusy, s1)
          else (Ok tt, mkState (set_active (<[name := dev]> (w_active (st_world s)))
                                           (st_world s)) (st_log s1))
      end
  end.
Proof.
  unfold luks_open, crypt_load, crypt_init. unfold_M.
  destruct (w_devices (st_world s) !! dev) as [[h|]|]; [|reflexivity|reflexivity]. cbn.
  destruct (w_active (st_world s) !! name); [reflexivity|]. cbn.
  destruct (negb _); [reflexivity|]. cbn.
  destruct (device_is_active _ _); reflexivity.
Qed.

End Eval.

(* ================================================================== *)
(** ** What a successful [setup] did *)

Section SetupRun.
Context (P : prims).

Ltac step H lem := rewrite bind_run, lem in H; simpl_states in H; cbn beta iota zeta delta [Nat.ltb Nat.leb andb negb] in H.

Lemma argon2_ok_length pwd salt out :
  argon2_hash_password_into P pwd salt 64 = inr out -> length out = 64.
Proof.
  unfold argon2_hash_password_into.
  repeat (case_match; [discriminate|]).
  intros [= <-]. apply argon2_raw_length.
Qed.

Lemma setup_ok_inv pw dev s s' :
  setup P pw dev s = (Ok tt, s') ->
  let w := st_world s in
  let t := w_tpm w in
  let salt := rng_out t 64 in
  let secret := rng_out (rng_advance t 64) 64 in
  exists kdf h0,
    tpm_present t = true /\
    argon2_hash_password_into P (as_bytes pw) salt 64 = inr kdf /\
    length kdf = 64 /\
    w_devices w !! dev = Some h0 /\
    device_is_active (w_active w) dev = false /\
    let final := hmac_sha256 P (firstn 32 kdf) secret in
    let sealed := tpm_create P (tpm_seed t) (skipn 32 kdf) secret in
    st_world s' =
      mkWorld (rng_advance (rng_advance t 64) 64)
        (<[dev := Some (mkLuks2 (<[0 := final]> ∅) (stored_tokens ∅ salt sealed.1 sealed.2))]>
           (w_devices w))
        (w_active w) /\
    st_log s' =
      st_log s ++ [EvCreatePrimary; EvGetRandom 64 salt; EvDerive (as_bytes pw) salt;
                   EvGetRandom 64 secret; EvHmac (firstn 32 kdf) secret final;
                   EvSeal secret (skipn 32 kdf); EvFormat dev final; EvStoreTokens dev].
Proof.
  intros H. unfold setup in H.
  step H create_primary_run.
  destruct (tpm_present (w_tpm (st_world s))) eqn:Hp; [|discriminate H].
  cbn beta iota zeta delta [Nat.ltb Nat.leb andb negb] in H.
  step H tpm_random_bytes_run.
  step H derive_key_run.
  destruct (argon2_hash_password_into P _ _ 64) as [e|kdf] eqn:Ha; [discriminate H|].
  cbn beta iota zeta delta [Nat.ltb Nat.leb andb negb] in H.
  pose proof (argon2_ok_length _ _ _ Ha) as Hlen.
  step H split_at_run. rewrite Hlen in H. cbn beta iota zeta delta [Nat.ltb Nat.leb andb negb] in H.
  step H tpm_random_bytes_run.
  step H compute_hmac_run.
  step H seal_secret_run. cbn [rng_advance tpm_max_tries tpm_failed_tries] in H.
  destruct (tpm_max_tries _ <=? tpm_failed_tries _)%nat; [discriminate H|].
  destruct (tpm_create P _ _ _) as [spub spriv] eqn:Hc. cbn beta iota zeta delta [Nat.ltb Nat.leb andb negb] in H.
  step H luks_format_run.
  destruct (w_devices (st_world s) !! dev) as [h0|] eqn:Hd; [|discriminate H].
  cbn beta iota zeta delta [Nat.ltb Nat.leb andb negb] in H.
  destruct (device_is_active _ dev) eqn:Hact; [discriminate H|].
  cbn beta iota zeta delta [Nat.ltb Nat.leb andb negb] in H.
  step H luks2_store_tpm_tokens_run. rewrite lookup_insert_eq in H.
  cbn beta iota zeta delta [Nat.ltb Nat.leb andb negb] in H. unfold mret, M_ret, ret in H.
  injection H as <-.
  exists kdf, h0. cbv zeta. rewrite Hc. cbn [fst snd].
  repeat split; auto.
  rewrite insert_insert_eq. reflexivity.
  rewrite <- !app_assoc. reflexivity.
Qed.

(** A successful [setup] ran outside dictionary-attack lockout (TPM2_Create
    under the primary key is refused in lockout). *)
Lemma setup_ok_not_locked pw dev s s' :
  setup P pw dev s = (Ok tt, s') ->
  (tpm_failed_tries (w_tpm (st_world s)) < tpm_max_tries (w_tpm (st_world s)))%nat.
Proof.
  intros H. unfold setup in H.
  step H create_primary_run.
  destruct (tpm_present (w_tpm (st_world s))); [|discriminate H].
  cbn beta iota zeta delta [Nat.ltb Nat.leb andb negb] in H.
  step H tpm_random_bytes_run.
  step H derive_key_run.
  destruct (argon2_hash_password_into P _ _ 64) as [e|kdf] eqn:Ha; [discriminate H|].
  cbn beta iota zeta delta [Nat.ltb Nat.leb andb negb] in H.
  pose proof (argon2_ok_length _ _ _ Ha) as Hlen.
  step H split_at_run. rewrite Hlen in H. cbn beta iota zeta delta [Nat.ltb Nat.leb andb negb] in H.
  step H tpm_random_bytes_run.
  step H compute_hmac_run.
  step H seal_secret_run. cbn [rng_advance tpm_max_tries tpm_failed_tries] in H.
  destruct (Nat.leb_spec (tpm_max_tries (w_tpm (st_world s)))
                         (tpm_failed_tries (w_tpm (st_world s)))); [discriminate H|].
  exact H0.
Qed.

End SetupRun.

Section UnlockRun.
Context (P : prims).

Ltac step H lem := rewrite bind_run, lem in H; simpl_states in H;
  cbn beta iota zeta delta [Nat.ltb Nat.leb andb negb] in H.

Lemma unlock_ok_inv pw dev s k s' :
  unlock P pw dev s = (Ok k, s') ->
  let w := st_world s in
  let t := w_tpm w in
  exists salt pub_bytes priv_bytes kdf secret,
    load_tokens_from w dev = Ok (salt, pub_bytes, priv_bytes) /\
    argon2_hash_password_into P (as_bytes pw) salt 64 = inr kdf /\
    length kdf = 64 /\
    tpm_present t = true /\
    (tpm_failed_tries t < tpm_max_tries t)%nat /\
    tpm_load P (tpm_seed t) pub_bytes priv_bytes = Some (skipn 32 kdf, secret) /\
    k = hmac_sha256 P (firstn 32 kdf) secret /\
    w_active w !! "data" = None /\
    st_world s' = set_active (<[ "data" := dev ]> (w_active w)) w /\
    st_log s' =
      st_log s ++ [EvLoadTokens dev; EvDerive (as_bytes pw) salt; EvCreatePrimary;
                   EvUnseal pub_bytes priv_bytes (skipn 32 kdf);
                   EvHmac (firstn 32 kdf) secret k; EvOpen dev k "data"].
Proof.
  intros H. unfold unlock in H.
  step H luks2_load_tpm_tokens_run.
  destruct (load_tokens_from (st_world s) dev) as [[[salt pubb] privb]|e|m|c] eqn:Hl;
    try discriminate H.
  cbn beta iota zeta in H.
  step H derive_key_run.
  destruct (argon2_hash_password_into P _ _ 64) as [e|kdf] eqn:Ha; [discriminate H|].
  cbn beta iota zeta in H.
  pose proof (argon2_ok_length P _ _ _ Ha) as Hlen.
  step H split_at_run. rewrite Hlen in H. cbn beta iota zeta delta [Nat.ltb Nat.leb] in H.
  step H create_primary_run.
  destruct (tpm_present (w_tpm (st_world s))) eqn:Hp; [|discriminate H].
  cbn beta iota zeta in H.
  step H unseal_secret_run.
  destruct (tpm_load P _ pubb privb) as [[auth secret]|] eqn:Hld; [|discriminate H].
  cbn beta iota zeta in H.
  destruct (tpm_max_tries _ <=? tpm_failed_tries _)%nat eqn:Hda; [discriminate H|].
  destruct (bool_decide (drop 32 kdf = auth)) eqn:Hpin; [|discriminate H].
  apply bool_decide_eq_true_1 in Hpin. subst auth.
  cbn beta iota zeta in H.
  step H compute_hmac_run.
  step H luks_open_run.
  destruct (w_devices (st_world s) !! dev) as [[h|]|] eqn:Hd; try discriminate H.
  cbn beta iota zeta in H.
  destruct (w_active (st_world s) !! "data") eqn:Hact; [discriminate H|].
  cbn beta iota zeta in H.
  destruct (negb _); [discriminate H|].
  cbn beta iota zeta in H.
  destruct (device_is_active _ dev); [discriminate H|].
  cbn beta iota zeta in H. unfold mret, M_ret, ret in H.
  injection H as <- <-.
  exists salt, pubb, privb, kdf, secret.
  apply Nat.leb_gt in Hda.
  repeat split; auto.
  cbn. rewrite <- !app_assoc. reflexivity.
Qed.

End UnlockRun.

(* ================================================================== *)
(** ** Reading back what [setup] wrote *)

Lemma read_token_record h id ty data :
  tokens h !! id = Some (token_record ty data) -> read_token h id = Ok data.
Proof.
  intros Hid. unfold read_token. rewrite Hid. cbn.
  rewrite Base64.decode_encode. reflexivity.
Qed.

Lemma stored_tokens_lookup toks a b c :
  stored_tokens toks a b c !! 1 = Some (token_record "user.salt" a) /\
  stored_tokens toks a b c !! 2 = Some (token_record "user.obj_pub" b) /\
  stored_tokens toks a b c !! 3 = Some (token_record "user.obj_priv" c).
Proof.
  unfold stored_tokens. split; [|split].
  - rewrite !lookup_insert_ne by lia. apply lookup_insert_eq.
  - rewrite lookup_insert_ne by lia. apply lookup_insert_eq.
  - apply lookup_insert_eq.
Qed.

Lemma load_tokens_from_stored w dev ks toks a b c :
  w_devices w !! dev = Some (Some (mkLuks2 ks (stored_tokens toks a b c))) ->
  load_tokens_from w dev = Ok (a, b, c).
Proof.
  intros Hd. unfold load_tokens_from. rewrite Hd.
  destruct (stored_tokens_lookup toks a b c) as (H1 & H2 & H3).
  rewrite (read_token_record (mkLuks2 ks _) 1 _ a H1),
          (read_token_record (mkLuks2 ks _) 2 _ b H2),
          (read_token_record (mkLuks2 ks _) 3 _ c H3).
  reflexivity.
Qed.

(** The outputs of the HMAC computations recorded in a log. *)
Definition hmac_outputs (log : list event) : list (list byte) :=
  flat_map (fun e => match e with EvHmac _ _ out => [out] | _ => [] end) log.

Lemma hmac_outputs_app l1 l2 : hmac_outputs (l1 ++ l2) = hmac_outputs l1 ++ hmac_outputs l2.
Proof. unfold hmac_outputs. apply flat_map_app. Qed.

Lemma keyslot_opens_single key :
  existsb (fun kv => bool_decide (kv.2 = key)) (map_to_list (<[0 := key]> (∅ : gmap nat (list byte))))
  = true.
Proof.
  rewrite insert_empty, map_to_list_singleton. cbn.
  rewrite bool_decide_eq_true_2 by reflexivity. reflexivity.
Qed.

(* ================================================================== *)
(** ** Operation kinds *)

(** The kind of an operation recorded in a log. *)
Inductive op_kind :=
| KCreatePrimary | KGetRandom | KDerive | KHmac | KSeal | KUnseal
| KFormat | KStoreTokens | KLoadTokens | KOpen.

Definition event_kind (e : event) : op_kind :=
  match e with
  | EvCreatePrimary => KCreatePrimary
  | EvGetRandom _ _ => KGetRandom
  | EvDerive _ _ => KDerive
  | EvHmac _ _ _ => KHmac
  | EvSeal _ _ => KSeal
  | EvUnseal _ _ _ => KUnseal
  | EvFormat _ _ => KFormat
  | EvStoreTokens _ => KStoreTokens
  | EvLoadTokens _ => KLoadTokens
  | EvOpen _ _ _ => KOpen
  end.

(** The order of the setup workflow as the specification lists its steps:
    root key (1), Salt and Secret (2), derive (3), seal (4), hmac (5),
    format and header records (6). *)
Definition spec_setup_order : list op_kind :=
  [KCreatePrimary; KGetRandom; KGetRandom; KDerive; KSeal; KHmac; KFormat; KStoreTokens].

(** Which outcomes are a success, and which the TPM's authorization failure. *)
Definition is_ok {A} (o : outcome A) : bool :=
  match o with Ok _ => true | _ => false end.

Definition is_auth_fail {A} (o : outcome A) : bool :=
  match o with Err TpmAuthFail => true | _ => false end.

(* ================================================================== *)
(** ** Unlock reads the salt from the header *)

Lemma load_tokens_from_ok_salt w dev a b c :
  load_tokens_from w dev = Ok (a, b, c) ->
  exists h, w_devices w !! dev = Some (Some h) /\ read_token h 1 = Ok a.
Proof.
  unfold load_tokens_from.
  destruct (w_devices w !! dev) as [[h|]|]; try discriminate.
  destruct (read_token h 1) eqn:E1, (read_token h 2), (read_token h 3);
    try discriminate.
  intros [= -> _ _]. eauto.
Qed.

(* ================================================================== *)
(** ** [str::trim] *)

Lemma trim_start_ws_app (w s : rstr) :
  forallb is_whitespace w = true -> trim_start (w ++ s) = trim_start s.
Proof.
  induction w as [|c w IH]; [reflexivity|].
  cbn. intros [Hc Hw]%andb_prop. rewrite Hc. apply IH, Hw.
Qed.

Lemma trim_start_app (x y : rstr) :
  trim_start (x ++ y) =
  match trim_start x with [] => trim_start y | t => t ++ y end.
Proof.
  induction x as [|c x IH]; [reflexivity|].
  cbn. destruct (is_whitespace c); [exact IH|reflexivity].
Qed.

Lemma trim_start_all_ws (w : rstr) :
  forallb is_whitespace w = true -> trim_start w = [].
Proof. intros Hw. rewrite <- (app_nil_r w), trim_start_ws_app by exact Hw. reflexivity. Qed.

Lemma trim_end_app_ws (x w : rstr) :
  forallb is_whitespace w = true -> trim_end (x ++ w) = trim_end x.
Proof.
  intros Hw. unfold trim_end. rewrite rev_app_distr, trim_start_ws_app; [reflexivity|].
  rewrite forallb_forall in *. intros c Hc. apply Hw. apply in_rev, Hc.
Qed.

Lemma trim_surrounding_ws (w1 core w2 : rstr) :
  forallb is_whitespace w1 = true -> forallb is_whitespace w2 = true ->
  trim (w1 ++ core ++ w2) = trim core.
Proof.
  intros H1 H2. unfold trim. rewrite trim_start_ws_app by exact H1.
  rewrite trim_start_app.
  destruct (trim_start core) as [|c t] eqn:E.
  - rewrite trim_start_all_ws by exact H2. reflexivity.
  - apply trim_end_app_ws, H2.
Qed.

(* ================================================================== *)
(** ** Claims *)

Ltac red_bool := cbn beta iota zeta delta [Nat.ltb Nat.leb andb negb].

(** C1 (end-to-end scenario 1).  If [setup p dev] succeeds and [unlock p dev]
    runs right after it (the TPM not in dictionary-attack lockout and no
    device-mapper name "data" in use), [unlock] succeeds, and the FinalKey it
    computes and returns is, byte for byte, the one [setup] computed. *)
Theorem setup_then_unlock_same_final_key (P : prims) (pw : rstr) (dev : string)
    (w : world) (s1 : state) :
  run (setup P pw dev) w = (Ok tt, s1) ->
  w_active w !! "data" = None ->
  (tpm_failed_tries (w_tpm w) < tpm_max_tries (w_tpm w))%nat ->
  exists k s2,
    run (unlock P pw dev) (st_world s1) = (Ok k, s2) /\
    hmac_outputs (st_log s1) = [k] /\ hmac_outputs (st_log s2) = [k].
Proof.
  intros Hs Hdata Hda. unfold run in *.
  apply setup_ok_inv in Hs. cbn [st_world st_log] in Hs.
  destruct Hs as (kdf & h0 & Hp & Ha & Hlen & Hd & Hact & Hw & Hl).
  rewrite Hw, Hl.
  eexists _, _. split; [|split].
  - unfold unlock.
    rewrite bind_run, luks2_load_tpm_tokens_run. simpl_states.
    erewrite load_tokens_from_stored by apply lookup_insert_eq.
    cbn beta iota zeta.
    rewrite bind_run, derive_key_run, Ha. cbn beta iota zeta.
    rewrite bind_run, split_at_run, Hlen. red_bool.
    rewrite bind_run, create_primary_run. simpl_states. cbn [rng_advance tpm_present].
    rewrite Hp. cbn beta iota zeta.
    rewrite bind_run, unseal_secret_run. simpl_states. cbn [rng_advance tpm_seed].
    rewrite tpm_load_create. cbn beta iota zeta.
    cbn [rng_advance tpm_max_tries tpm_failed_tries].
    rewrite (proj2 (Nat.leb_gt _ _) Hda). red_bool.
    rewrite bool_decide_eq_true_2 by reflexivity. cbn beta iota zeta.
    rewrite bind_run, compute_hmac_run. cbn beta iota zeta.
    rewrite bind_run, luks_open_run. simpl_states.
    rewrite lookup_insert_eq. cbn beta iota zeta.
    rewrite Hdata. cbn beta iota zeta.
    rewrite keyslot_opens_single. red_bool.
    rewrite Hact. reflexivity.
  - rewrite hmac_outputs_app. reflexivity.
  - reflexivity.
Qed.

(** C2.  In both workflows the LUKS key is HMAC-SHA-256(slice_a, Secret), 32
    bytes long, where the 64-byte Argon2 output [kdf] is split into
    slice_a = its first 32 bytes and slice_b = its last 32 bytes, two
    disjoint halves that together make up [kdf]; slice_b is the PIN under
    which the Secret is sealed (setup) and unsealed (unlock).  In [setup]
    that key is the one the container is formatted with (keyslot 0); in
    [unlock] it is the one the container is opened with and returned. *)
Theorem final_key_is_hmac_of_slice_a (P : prims) :
  (forall pw dev w s1,
     run (setup P pw dev) w = (Ok tt, s1) ->
     exists salt kdf secret,
       argon2_hash_password_into P (as_bytes pw) salt 64 = inr kdf /\
       length kdf = 64 /\ length (firstn 32 kdf) = 32 /\ length (skipn 32 kdf) = 32 /\
       firstn 32 kdf ++ skipn 32 kdf = kdf /\
       In (EvSeal secret (skipn 32 kdf)) (st_log s1) /\
       In (EvFormat dev (hmac_sha256 P (firstn 32 kdf) secret)) (st_log s1) /\
       length (hmac_sha256 P (firstn 32 kdf) secret) = 32 /\
       (exists toks, w_devices (st_world s1) !! dev =
          Some (Some (mkLuks2 (<[0 := hmac_sha256 P (firstn 32 kdf) secret]> ∅) toks)))) /\
  (forall pw dev w k s1,
     run (unlock P pw dev) w = (Ok k, s1) ->
     exists salt kdf pub_bytes priv_bytes secret,
       argon2_hash_password_into P (as_bytes pw) salt 64 = inr kdf /\
       length kdf = 64 /\ length (firstn 32 kdf) = 32 /\ length (skipn 32 kdf) = 32 /\
       firstn 32 kdf ++ skipn 32 kdf = kdf /\
       In (EvUnseal pub_bytes priv_bytes (skipn 32 kdf)) (st_log s1) /\
       tpm_load P (tpm_seed (w_tpm w)) pub_bytes priv_bytes = Some (skipn 32 kdf, secret) /\
       k = hmac_sha256 P (firstn 32 kdf) secret /\ length k = 32 /\
       In (EvOpen dev k "data") (st_log s1)).
Proof.
  split.
  - intros pw dev w s1 Hs. unfold run in Hs.
    apply setup_ok_inv in Hs. cbn [st_world st_log] in Hs.
    destruct Hs as (kdf & h0 & Hp & Ha & Hlen & Hd & Hact & Hw & Hl).
    exists (rng_out (w_tpm w) 64), kdf, (rng_out (rng_advance (w_tpm w) 64) 64).
    rewrite Hl, Hw. cbn [w_devices].
    repeat split; auto.
    + rewrite length_take. lia.
    + rewrite length_drop. lia.
    + apply take_drop.
    + right; right; right; right; right; left. reflexivity.
    + right; right; right; right; right; right; left. reflexivity.
    + apply hmac_sha256_length.
    + eexists. apply lookup_insert_eq.
  - intros pw dev w k s1 Hu. unfold run in Hu.
    apply unlock_ok_inv in Hu. cbn [st_world st_log] in Hu.
    destruct Hu as (salt & pubb & privb & kdf & secret & Hl & Ha & Hlen & Hp & Hda &
                    Hld & Hk & Hdata & Hw & Hlog).
    exists salt, kdf, pubb, privb, secret.
    rewrite Hlog. repeat split; auto.
    + rewrite length_take. lia.
    + rewrite length_drop. lia.
    + apply take_drop.
    + right; right; right; left. reflexivity.
    + subst k. apply hmac_sha256_length.
    + right; right; right; right; right; left. reflexivity.
Qed.

(** C3 (header round trip).  Whatever the container holds, once
    [luks2_store_tpm_tokens dev a b c] has succeeded, [luks2_load_tpm_tokens dev]
    returns exactly [(a, b, c)], for all byte strings (every byte value). *)
Theorem store_then_load_roundtrip (dev : string) (a b c : list byte) (s s' : state) :
  luks2_store_tpm_tokens dev a b c s = (Ok tt, s') ->
  luks2_load_tpm_tokens dev s' = (Ok (a, b, c), log_add s' (EvLoadTokens dev)).
Proof.
  rewrite luks2_store_tpm_tokens_run. cbv zeta.
  destruct (w_devices (st_world s) !! dev) as [[h|]|]; try discriminate.
  intros [= <-].
  rewrite luks2_load_tpm_tokens_run.
  erewrite load_tokens_from_stored by apply lookup_insert_eq.
  reflexivity.
Qed.

(** C4 (persisted layout).  After a successful [setup], the container's
    LUKS2 header has exactly one keyslot, slot 0, opened by the FinalKey, and
    exactly three tokens: slot 1 the salt, slot 2 the sealed object's public
    part, slot 3 its private part, each the JSON object
    {"type": <name>, "keyslots": [], "key_description": <base64 payload>}. *)
Theorem setup_header_layout (P : prims) (pw : rstr) (dev : string) (w : world) (s1 : state) :
  run (setup P pw dev) w = (Ok tt, s1) ->
  exists salt secret slice_a pin pub_bytes priv_bytes final,
    st_log s1 = [EvCreatePrimary; EvGetRandom 64 salt; EvDerive (as_bytes pw) salt;
                 EvGetRandom 64 secret; EvHmac slice_a secret final; EvSeal secret pin;
                 EvFormat dev final; EvStoreTokens dev] /\
    tpm_create P (tpm_seed (w_tpm w)) pin secret = (pub_bytes, priv_bytes) /\
    w_devices (st_world s1) !! dev =
      Some (Some (mkLuks2
        (<[0 := final]> ∅)
        (<[3 := JObj [("type", JStr "user.obj_priv"); ("keyslots", JArr []);
                      ("key_description", JStr (Base64.encode priv_bytes))]]>
         (<[2 := JObj [("type", JStr "user.obj_pub"); ("keyslots", JArr []);
                       ("key_description", JStr (Base64.encode pub_bytes))]]>
          (<[1 := JObj [("type", JStr "user.salt"); ("keyslots", JArr []);
                        ("key_description", JStr (Base64.encode salt))]]> ∅))))).
Proof.
  intros Hs. unfold run in Hs.
  apply setup_ok_inv in Hs. cbn [st_world st_log] in Hs.
  destruct Hs as (kdf & h0 & Hp & Ha & Hlen & Hd & Hact & Hw & Hl).
  destruct (tpm_create P (tpm_seed (w_tpm w)) (skipn 32 kdf)
              (rng_out (rng_advance (w_tpm w) 64) 64)) as [pubb privb] eqn:Hc.
  cbv zeta in Hw, Hl. cbn [fst snd] in Hw.
  eexists _, _, _, _, pubb, privb, _. split; [exact Hl|]. split; [exact Hc|].
  rewrite Hw. cbn [w_devices]. rewrite lookup_insert_eq. reflexivity.
Qed.

Lemma argon2_ok_raw P pwd salt out :
  argon2_hash_password_into P pwd salt 64 = inr out -> out = argon2_raw P pwd salt 64.
Proof.
  unfold argon2_hash_password_into.
  repeat (case_match; [discriminate|]). congruence.
Qed.

(** The salt checks do not depend on the password: another password of
    admissible length passes Argon2's checks with the same salt. *)
Lemma argon2_other_password P pwd1 pwd2 salt out :
  argon2_hash_password_into P pwd1 salt 64 = inr out ->
  (N.of_nat (length pwd2) <= argon2_max_len)%N ->
  argon2_hash_password_into P pwd2 salt 64 = inr (argon2_raw P pwd2 salt 64).
Proof.
  unfold argon2_hash_password_into. intros H Hlen.
  destruct (N.of_nat 64 <? argon2_min_output_len)%N; [discriminate|].
  destruct (argon2_max_len <? N.of_nat 64)%N; [discriminate|].
  destruct (argon2_max_len <? N.of_nat (length pwd1))%N; [discriminate|].
  rewrite (proj2 (N.ltb_ge _ _) Hlen).
  destruct (N.of_nat (length salt) <? argon2_min_salt_len)%N; [discriminate|].
  destruct (argon2_max_len <? N.of_nat (length salt))%N; [discriminate|].
  reflexivity.
Qed.

(** C5, as the code behaves.  Take a device set up by [setup p1 dev], and
    any later world in which its header and the TPM (its owner seed) are
    still the ones [setup] used, for instance after earlier unlock attempts,
    which change neither.  There, [unlock p2 dev] with a password whose
    slice_b differs from the sealing PIN gets through key derivation (Argon2
    accepts the stored salt; [p2] is of admissible length) and stops at the
    unseal step, the last call it makes, without returning the Secret: with
    [TpmAuthFail], one more dictionary-attack failure counted, while that
    world's TPM is below its lockout threshold; with [TpmLockout], nothing
    counted, once it has reached it.  The resulting world again keeps the
    header and the TPM's seed, so the statement applies to the next attempt. *)
Theorem wrong_password_fails_at_unseal (P : prims) (pw1 pw2 : rstr) (dev : string)
    (w : world) (s1 : state) (w2 : world) :
  run (setup P pw1 dev) w = (Ok tt, s1) ->
  w_devices w2 !! dev = w_devices (st_world s1) !! dev ->
  tpm_present (w_tpm w2) = true ->
  tpm_seed (w_tpm w2) = tpm_seed (w_tpm w) ->
  (N.of_nat (length (as_bytes pw2)) <= argon2_max_len)%N ->
  skipn 32 (argon2_raw P (as_bytes pw2) (rng_out (w_tpm w) 64) 64)
    <> skipn 32 (argon2_raw P (as_bytes pw1) (rng_out (w_tpm w) 64) 64) ->
  let salt := rng_out (w_tpm w) 64 in
  let t := w_tpm w2 in
  let r := run (unlock P pw2 dev) w2 in
  fst r = (if (tpm_failed_tries t <? tpm_max_tries t)%nat then Err TpmAuthFail
           else Err TpmLockout) /\
  (exists pub_bytes priv_bytes,
     st_log (snd r) =
       [EvLoadTokens dev; EvDerive (as_bytes pw2) salt; EvCreatePrimary;
        EvUnseal pub_bytes priv_bytes (skipn 32 (argon2_raw P (as_bytes pw2) salt 64))]) /\
  tpm_failed_tries (w_tpm (st_world (snd r))) =
    (if (tpm_failed_tries t <? tpm_max_tries t)%nat then S (tpm_failed_tries t)
     else tpm_failed_tries t) /\
  st_world (snd r) =
    (if (tpm_failed_tries t <? tpm_max_tries t)%nat then set_tpm (da_fail t) w2 else w2).
Proof.
  intros Hs Hdev Hp2 Hseed Hpw Hpin. unfold run in *.
  apply setup_ok_inv in Hs. cbn [st_world st_log] in Hs.
  destruct Hs as (kdf & h0 & Hp & Ha & Hlen & Hd & Hact & Hw & Hl).
  pose proof (argon2_other_password P _ (as_bytes pw2) _ _ Ha Hpw) as Ha2.
  pose proof (argon2_ok_raw P _ _ _ Ha) as ->.
  cbv zeta in *. rewrite Hw in Hdev. cbn [w_devices] in Hdev.
  rewrite lookup_insert_eq in Hdev.
  destruct (Nat.ltb_spec (tpm_failed_tries (w_tpm w2)) (tpm_max_tries (w_tpm w2))) as [Hlt|Hge].
  all: unfold unlock.
  all: rewrite bind_run, luks2_load_tpm_tokens_run; simpl_states.
  all: rewrite (load_tokens_from_stored _ _ _ _ _ _ _ Hdev); cbn beta iota zeta.
  all: rewrite bind_run, derive_key_run, Ha2; cbn beta iota zeta.
  all: rewrite bind_run, split_at_run, argon2_raw_length; red_bool.
  all: rewrite bind_run, create_primary_run; simpl_states.
  all: rewrite Hp2; cbn beta iota zeta.
  all: rewrite bind_run, unseal_secret_run; simpl_states; rewrite Hseed.
  all: rewrite tpm_load_create; cbn beta iota zeta.
  - rewrite (proj2 (Nat.leb_gt _ _) Hlt).
    rewrite bool_decide_eq_false_2 by exact Hpin.
    cbn [fst snd st_log st_world log_add set_tpm da_fail w_tpm tpm_failed_tries].
    split; [reflexivity|]. split; [eexists _, _; reflexivity|]. split; reflexivity.
  - rewrite (proj2 (Nat.leb_le _ _) Hge).
    cbn [fst snd st_log st_world log_add].
    split; [reflexivity|]. split; [eexists _, _; reflexivity|]. split; reflexivity.
Qed.

(** C5 fails as stated: the TPM's dictionary-attack lockout.  On the toy
    TPM (lockout threshold 3), after [setup "correct horse"], three unlocks
    with "wrong password" fail with [TpmAuthFail] and the fourth fails with
    [TpmLockout], not with an authorization failure. *)
Lemma wrong_password_lockout_after_three_failures :
  let pw1 := Toy.rs "correct horse" in
  let pw2 := Toy.rs "wrong password" in
  let r0 := run (setup Toy.prims pw1 Toy.dev) Toy.world0 in
  let u1 := run (unlock Toy.prims pw2 Toy.dev) (st_world (snd r0)) in
  let u2 := run (unlock Toy.prims pw2 Toy.dev) (st_world (snd u1)) in
  let u3 := run (unlock Toy.prims pw2 Toy.dev) (st_world (snd u2)) in
  let u4 := run (unlock Toy.prims pw2 Toy.dev) (st_world (snd u3)) in
  fst r0 = Ok tt /\ fst u1 = Err TpmAuthFail /\ fst u2 = Err TpmAuthFail /\
  fst u3 = Err TpmAuthFail /\ fst u4 = Err TpmLockout.
Proof. vm_compute. repeat split. Qed.

(** C6, as the code orders it.  A successful [setup] creates the primary
    key, draws the Salt, derives the key material, draws the Secret, computes
    FinalKey = hmac(slice_a, Secret), seals the Secret under slice_b, formats
    the container and writes the header records, in this order. *)
Theorem setup_step_order (P : prims) (pw : rstr) (dev : string) (w : world) (s1 : state) :
  run (setup P pw dev) w = (Ok tt, s1) ->
  map event_kind (st_log s1) =
    [KCreatePrimary; KGetRandom; KDerive; KGetRandom; KHmac; KSeal; KFormat; KStoreTokens].
Proof.
  intros Hs. unfold run in Hs.
  apply setup_ok_inv in Hs. cbn [st_world st_log] in Hs.
  destruct Hs as (kdf & h0 & Hp & Ha & Hlen & Hd & Hact & Hw & Hl).
  cbv zeta in Hl. rewrite Hl. reflexivity.
Qed.

(** C6 fails as stated: in a successful toy run the Secret is drawn after
    the derivation and the HMAC is computed before the sealing. *)
Lemma setup_order_differs_from_spec :
  let r := run (setup Toy.prims (Toy.rs "correct horse") Toy.dev) Toy.world0 in
  fst r = Ok tt /\
  map event_kind (st_log (snd r)) =
    [KCreatePrimary; KGetRandom; KDerive; KGetRandom; KHmac; KSeal; KFormat; KStoreTokens] /\
  map event_kind (st_log (snd r)) <> spec_setup_order.
Proof. vm_compute. split; [reflexivity|]. split; [reflexivity|]. intros H; discriminate H. Qed.

(** C7, as the code behaves.  [derive_key] never returns an error value.  It
    returns the 64-byte Argon2 output when the salt has between 8 and
    2^32-1 bytes and the password at most 2^32-1 bytes (any such salt, not
    only a 64-byte one), and otherwise panics with "Argon2 hashing failed". *)
Theorem derive_key_outcome (P : prims) (pw : rstr) (salt : list byte) (s : state) :
  let pwd := as_bytes pw in
  let r := derive_key P pw salt s in
  snd r = log_add s (EvDerive pwd salt) /\
  ((fst r = Ok (argon2_raw P pwd salt 64) /\ length (argon2_raw P pwd salt 64) = 64 /\
    (8 <= length salt)%nat /\ (N.of_nat (length salt) <= argon2_max_len)%N /\
    (N.of_nat (length pwd) <= argon2_max_len)%N) \/
   (fst r = Panic "Argon2 hashing failed" /\
    ((length salt < 8)%nat \/ (argon2_max_len < N.of_nat (length salt))%N \/
     (argon2_max_len < N.of_nat (length pwd))%N))).
Proof.
  cbv zeta. rewrite derive_key_run. cbn [fst snd]. split; [reflexivity|].
  unfold argon2_hash_password_into.
  change ((N.of_nat 64 <? argon2_min_output_len)%N) with false.
  change ((argon2_max_len <? N.of_nat 64)%N) with false.
  cbv iota beta.
  unfold argon2_min_salt_len.
  destruct (N.ltb_spec argon2_max_len (N.of_nat (length (as_bytes pw)))) as [Hp|Hp].
  - right. split; [reflexivity|]. right; right. exact Hp.
  - destruct (N.ltb_spec (N.of_nat (length salt)) 8) as [Hs|Hs].
    + right. split; [reflexivity|]. left. lia.
    + destruct (N.ltb_spec argon2_max_len (N.of_nat (length salt))) as [Hm|Hm].
      * right. split; [reflexivity|]. right; left. exact Hm.
      * left. split; [reflexivity|]. split; [apply argon2_raw_length|].
        repeat split; [lia|exact Hm|exact Hp].
Qed.

(** C7 fails as stated: there is no KdfFailure error; an empty salt makes
    [derive_key] panic, while a 32-byte salt (not the specified 64 bytes) is
    accepted. *)
Lemma derive_key_panics_on_short_salt :
  let s0 := mkState Toy.world0 [] in
  fst (derive_key Toy.prims (Toy.rs "correct horse") [] s0) = Panic "Argon2 hashing failed" /\
  fst (derive_key Toy.prims (Toy.rs "correct horse") (repeat Byte.x2a 32) s0)
    = Ok (argon2_raw Toy.prims (as_bytes (Toy.rs "correct horse")) (repeat Byte.x2a 32) 64).
Proof. vm_compute. split; reflexivity. Qed.

Ltac log_eq := cbn [fst snd st_log st_world log_add]; rewrite <- ?app_assoc; reflexivity.

(** C8.  During any run of [unlock] (successful or not), the only salt
    given to the key derivation is the one read from token 1 of the
    device's LUKS2 header, and no random bytes are requested from the TPM:
    its RNG position is unchanged. *)
Theorem unlock_reuses_stored_salt (P : prims) (pw : rstr) (dev : string) (s : state) :
  let r := unlock P pw dev s in
  exists evs,
    st_log (snd r) = st_log s ++ evs /\
    (forall n out, EvGetRandom n out ∉ evs) /\
    (forall pwd salt, EvDerive pwd salt ∈ evs ->
       exists h, w_devices (st_world s) !! dev = Some (Some h) /\ read_token h 1 = Ok salt) /\
    tpm_rng_pos (w_tpm (st_world (snd r))) = tpm_rng_pos (w_tpm (st_world s)).
Proof.
  cbv zeta. unfold unlock.
  rewrite bind_run, luks2_load_tpm_tokens_run. simpl_states.
  destruct (load_tokens_from (st_world s) dev) as [[[salt pubb] privb]|e|m|c] eqn:Hl;
    cbn beta iota zeta;
    try (exists [EvLoadTokens dev]; cbn [log_add st_log st_world];
         split; [log_eq|]; split; [intros ? ? Hin; set_solver|];
         split; [intros ? ? Hin; set_solver|reflexivity]).
  pose proof (load_tokens_from_ok_salt _ _ _ _ _ Hl) as Hsalt.
  rewrite bind_run, derive_key_run. simpl_states.
  destruct (argon2_hash_password_into P _ _ 64) as [e|kdf] eqn:Ha; cbn beta iota zeta.
  { exists [EvLoadTokens dev; EvDerive (as_bytes pw) salt].
    split; [log_eq|]. split; [intros ? ? Hin; set_solver|].
    split; [|reflexivity].
    intros pwd salt' Hin. apply list_elem_of_In in Hin. cbn in Hin.
    destruct Hin as [Hin|[Hin|[]]]; [discriminate|]. injection Hin as <- <-. exact Hsalt. }
  pose proof (argon2_ok_length P _ _ _ Ha) as Hlen.
  rewrite bind_run, split_at_run, Hlen. red_bool.
  rewrite bind_run, create_primary_run. simpl_states.
  destruct (tpm_present (w_tpm (st_world s))); cbn beta iota zeta.
  2:{ exists [EvLoadTokens dev; EvDerive (as_bytes pw) salt; EvCreatePrimary].
      split; [log_eq|]. split; [intros ? ? Hin; set_solver|].
      split; [|reflexivity].
      intros pwd salt' Hin. apply list_elem_of_In in Hin. cbn in Hin.
      destruct Hin as [Hin|[Hin|[Hin|[]]]]; try discriminate.
      injection Hin as <- <-. exact Hsalt. }
  rewrite bind_run, unseal_secret_run. simpl_states.
  set (evs3 := [EvLoadTokens dev; EvDerive (as_bytes pw) salt; EvCreatePrimary;
                EvUnseal pubb privb (drop 32 kdf)]).
  assert (Hrand : forall n out (l : list event),
            (forall e, e ∈ l -> event_kind e <> KGetRandom) ->
            EvGetRandom n out ∉ l).
  { intros n out l Hk Hin. apply (Hk _ Hin). reflexivity. }
  assert (Hder : forall l : list event, (forall pwd salt', EvDerive pwd salt' ∈ l -> salt' = salt) ->
            forall pwd salt', EvDerive pwd salt' ∈ l ->
            exists h, w_devices (st_world s) !! dev = Some (Some h) /\ read_token h 1 = Ok salt').
  { intros l Hl' pwd salt' Hin. rewrite (Hl' _ _ Hin). exact Hsalt. }
  destruct (tpm_load P _ pubb privb) as [[auth secret]|] eqn:Hld; cbn beta iota zeta.
  2:{ exists evs3. split; [log_eq|].
      split; [intros ? ?; apply Hrand; intros e He; apply list_elem_of_In in He;
              cbn in He; intuition (subst; discriminate)|].
      split; [apply Hder; intros pwd salt' Hin; apply list_elem_of_In in Hin; cbn in Hin;
              intuition (try discriminate); congruence|reflexivity]. }
  destruct (tpm_max_tries _ <=? tpm_failed_tries _)%nat; cbn beta iota zeta.
  { exists evs3. split; [log_eq|].
    split; [intros ? ?; apply Hrand; intros e He; apply list_elem_of_In in He;
            cbn in He; intuition (subst; discriminate)|].
    split; [apply Hder; intros pwd salt' Hin; apply list_elem_of_In in Hin; cbn in Hin;
            intuition (try discriminate); congruence|reflexivity]. }
  destruct (bool_decide (drop 32 kdf = auth)); cbn beta iota zeta.
  2:{ exists evs3. split; [log_eq|].
      split; [intros ? ?; apply Hrand; intros e He; apply list_elem_of_In in He;
              cbn in He; intuition (subst; discriminate)|].
      split; [apply Hder; intros pwd salt' Hin; apply list_elem_of_In in Hin; cbn in Hin;
              intuition (try discriminate); congruence|reflexivity]. }
  rewrite bind_run, compute_hmac_run. simpl_states.
  rewrite bind_run, luks_open_run. simpl_states.
  set (evs6 := evs3 ++ [EvHmac (take 32 kdf) secret (hmac_sha256 P (take 32 kdf) secret);
                        EvOpen dev (hmac_sha256 P (take 32 kdf) secret) "data"]).
  assert (Hlog : forall l : list event, l = evs6 ->
    (forall n out, EvGetRandom n out ∉ l) /\
    (forall pwd salt', EvDerive pwd salt' ∈ l ->
       exists h, w_devices (st_world s) !! dev = Some (Some h) /\ read_token h 1 = Ok salt')).
  { intros l ->. split.
    - intros ? ?; apply Hrand; intros e He; apply list_elem_of_In in He;
        cbn in He; intuition (subst; discriminate).
    - apply Hder; intros pwd salt' Hin; apply list_elem_of_In in Hin; cbn in Hin;
        intuition (try discriminate); congruence. }
  destruct (Hlog evs6 eq_refl) as [Hr6 Hd6].
  destruct (w_devices (st_world s) !! dev) as [[h|]|]; cbn beta iota zeta;
    [|exists evs6; cbn; rewrite <- ?app_assoc; repeat split; auto..].
  destruct (w_active (st_world s) !! "data"); cbn beta iota zeta;
    [exists evs6; cbn; rewrite <- ?app_assoc; repeat split; auto|].
  destruct (negb _); cbn beta iota zeta;
    [exists evs6; cbn; rewrite <- ?app_assoc; repeat split; auto|].
  destruct (device_is_active _ _); cbn beta iota zeta;
    exists evs6; cbn; rewrite <- ?app_assoc; repeat split; auto.
Qed.

(** C9.  The passphrase used by both workflows is the typed line with
    leading and trailing whitespace removed ([str::trim]): two typed lines
    that differ only in surrounding whitespace give the same password, and
    [main] then behaves identically on them. *)
Theorem passphrase_surrounding_whitespace_ignored (P : prims) (prog dev : string)
    (core w1 w2 w1' w2' : rstr) :
  forallb is_whitespace w1 = true -> forallb is_whitespace w2 = true ->
  forallb is_whitespace w1' = true -> forallb is_whitespace w2' = true ->
  read_password (w1 ++ core ++ w2) = trim core /\
  read_password (w1 ++ core ++ w2) = read_password (w1' ++ core ++ w2') /\
  (forall args, main P args (w1 ++ core ++ w2) = main P args (w1' ++ core ++ w2')) /\
  (forall typed, main P [prog; "setup"; dev] typed = setup P (trim typed) dev) /\
  (forall typed, main P [prog; "unlock"; dev] typed = (unlock P (trim typed) dev ≫= fun _ => mret tt)).
Proof.
  intros H1 H2 H1' H2'.
  assert (E : read_password (w1 ++ core ++ w2) = read_password (w1' ++ core ++ w2')).
  { unfold read_password. rewrite !trim_surrounding_ws by assumption. reflexivity. }
  split; [unfold read_password; apply trim_surrounding_ws; assumption|].
  split; [exact E|].
  split; [intros args; unfold main; rewrite E; reflexivity|].
  split; intros typed; reflexivity.
Qed.

(** C10.  For a token present in the header, [read_token] looks only at its
    "key_description" field, never at its "type": it succeeds exactly when
    that field is a string that decodes as base64, fails with
    [MissingKeyDescription] exactly when the field is absent or not a string,
    and with [Base64Invalid] exactly when it is a string that does not
    decode; two tokens with the same "key_description" read the same. *)
Theorem read_token_checks_only_key_description (h : luks2) (id : nat) (v : json) :
  tokens h !! id = Some v ->
  ((exists d, read_token h id = Ok d) <->
     exists str d, json_index v "key_description" = JStr str /\ Base64.decode str = Some d) /\
  (read_token h id = Err MissingKeyDescription <->
     as_str (json_index v "key_description") = None) /\
  (read_token h id = Err Base64Invalid <->
     exists str, json_index v "key_description" = JStr str /\ Base64.decode str = None) /\
  (forall h' v', tokens h' !! id = Some v' ->
     json_index v' "key_description" = json_index v "key_description" ->
     read_token h' id = read_token h id).
Proof.
  intros Hv. unfold read_token. rewrite Hv.
  split; [|split; [|split]].
  - destruct (json_index v "key_description") eqn:Ej; cbn;
      try (split; [intros [d Hd]; discriminate|intros (str & d & Hs & _); discriminate]).
    destruct (Base64.decode s) eqn:Ed.
    + split; [intros _|intros _; eauto]. exists s, l. auto.
    + split; [intros [d Hd]; discriminate|intros (str & d & Hs & Hd); injection Hs as <-; congruence].
  - destruct (json_index v "key_description") eqn:Ej; cbn;
      try (split; reflexivity).
    destruct (Base64.decode s); split; discriminate.
  - destruct (json_index v "key_description") eqn:Ej; cbn;
      try (split; [discriminate|intros (str & Hs & _); discriminate]).
    destruct (Base64.decode s) eqn:Ed.
    + split; [discriminate|intros (str & Hs & Hd); injection Hs as <-; congruence].
    + split; [intros _; eauto|reflexivity].
  - intros h' v' Hv' Ek. rewrite Hv', Ek. reflexivity.
Qed.

(* ================================================================== *)
(** ** Instances on the toy primitives *)

Definition toy_world_setup : world :=
  st_world (snd (run (setup Toy.prims (Toy.rs "correct horse") Toy.dev) Toy.world0)).

(** The world after one run of [unlock] with [pw] on the toy device. *)
Definition toy_after_unlock (pw : string) (w : world) : world :=
  st_world (snd (run (unlock Toy.prims (Toy.rs pw) Toy.dev) w)).

(** After [setup], three unlocks with a wrong password: the toy TPM (lockout
    threshold 3) is in lockout. *)
Definition toy_world_locked : world :=
  toy_after_unlock "wrong password"
    (toy_after_unlock "wrong password" (toy_after_unlock "wrong password" toy_world_setup)).


(** [setup "correct horse"] on the toy world, then [unlock] with it. *)
Lemma setup_then_unlock_same_final_key_witness :
  let r := run (setup Toy.prims (Toy.rs "correct horse") Toy.dev) Toy.world0 in
  r = (Ok tt, snd r) /\ w_active Toy.world0 !! "data" = None /\
  (tpm_failed_tries (w_tpm Toy.world0) < tpm_max_tries (w_tpm Toy.world0))%nat /\
  exists k s2,
    run (unlock Toy.prims (Toy.rs "correct horse") Toy.dev) (st_world (snd r)) = (Ok k, s2) /\
    hmac_outputs (st_log (snd r)) = [k] /\ hmac_outputs (st_log s2) = [k].
Proof.
  cbv zeta.
  assert (H : run (setup Toy.prims (Toy.rs "correct horse") Toy.dev) Toy.world0
              = (Ok tt, snd (run (setup Toy.prims (Toy.rs "correct horse") Toy.dev) Toy.world0)))
    by (vm_compute; reflexivity).
  assert (Hd : w_active Toy.world0 !! "data" = None) by reflexivity.
  assert (Ht : (tpm_failed_tries (w_tpm Toy.world0) < tpm_max_tries (w_tpm Toy.world0))%nat)
    by (apply Nat.ltb_lt; reflexivity).
  split; [exact H|]. split; [exact Hd|]. split; [exact Ht|].
  exact (setup_then_unlock_same_final_key Toy.prims _ _ _ _ H Hd Ht).
Defined.

(** Store then load on an empty LUKS2 header, with every byte value. *)
Lemma store_then_load_roundtrip_witness :
  let s0 := mkState (mkWorld Toy.tpm0 {[ Toy.dev := Some (mkLuks2 ∅ ∅) ]} ∅) [] in
  let a := map (fun n => byte_of_Z (Z.of_nat n)) (seq 0 256) in
  let r := luks2_store_tpm_tokens Toy.dev a [Byte.x00] [Byte.xff] s0 in
  r = (Ok tt, snd r) /\
  luks2_load_tpm_tokens Toy.dev (snd r)
    = (Ok (a, [Byte.x00], [Byte.xff]), log_add (snd r) (EvLoadTokens Toy.dev)).
Proof.
  cbv zeta.
  match goal with |- ?l = (Ok tt, snd ?r) /\ _ =>
    assert (H : l = (Ok tt, snd r)) by (vm_compute; reflexivity) end.
  split; [exact H|].
  exact (store_then_load_roundtrip _ _ _ _ _ _ H).
Defined.

(** The header the toy [setup "correct horse"] writes. *)
Lemma setup_header_layout_witness :
  let r := run (setup Toy.prims (Toy.rs "correct horse") Toy.dev) Toy.world0 in
  r = (Ok tt, snd r) /\
  exists salt secret slice_a pin pub_bytes priv_bytes final,
    st_log (snd r) = [EvCreatePrimary; EvGetRandom 64 salt; EvDerive (as_bytes (Toy.rs "correct horse")) salt;
                      EvGetRandom 64 secret; EvHmac slice_a secret final; EvSeal secret pin;
                      EvFormat Toy.dev final; EvStoreTokens Toy.dev] /\
    tpm_create Toy.prims (tpm_seed (w_tpm Toy.world0)) pin secret = (pub_bytes, priv_bytes) /\
    w_devices (st_world (snd r)) !! Toy.dev =
      Some (Some (mkLuks2
        (<[0 := final]> ∅)
        (<[3 := JObj [("type", JStr "user.obj_priv"); ("keyslots", JArr []);
                      ("key_description", JStr (Base64.encode priv_bytes))]]>
         (<[2 := JObj [("type", JStr "user.obj_pub"); ("keyslots", JArr []);
                       ("key_description", JStr (Base64.encode pub_bytes))]]>
          (<[1 := JObj [("type", JStr "user.salt"); ("keyslots", JArr []);
                        ("key_description", JStr (Base64.encode salt))]]> ∅))))).
Proof.
  cbv zeta.
  assert (H : run (setup Toy.prims (Toy.rs "correct horse") Toy.dev) Toy.world0
              = (Ok tt, snd (run (setup Toy.prims (Toy.rs "correct horse") Toy.dev) Toy.world0)))
    by (vm_compute; reflexivity).
  split; [exact H|].
  exact (setup_header_layout Toy.prims _ _ _ _ H).
Defined.

(** [setup "correct horse"] then [unlock "wrong password"] on the toy world. *)
Lemma wrong_password_fails_at_unseal_witness :
  let pw1 := Toy.rs "correct horse" in
  let pw2 := Toy.rs "wrong password" in
  let w := Toy.world0 in
  let r0 := run (setup Toy.prims pw1 Toy.dev) w in
  let w2 := toy_world_locked in
  let salt := rng_out (w_tpm w) 64 in
  let t := w_tpm w2 in
  let r := run (unlock Toy.prims pw2 Toy.dev) w2 in
  r0 = (Ok tt, snd r0) /\
  w_devices w2 !! Toy.dev = w_devices (st_world (snd r0)) !! Toy.dev /\
  tpm_present (w_tpm w2) = true /\
  tpm_seed (w_tpm w2) = tpm_seed (w_tpm w) /\
  (N.of_nat (length (as_bytes pw2)) <= argon2_max_len)%N /\
  skipn 32 (argon2_raw Toy.prims (as_bytes pw2) salt 64)
    <> skipn 32 (argon2_raw Toy.prims (as_bytes pw1) salt 64) /\
  fst r = (if (tpm_failed_tries t <? tpm_max_tries t)%nat then Err TpmAuthFail
           else Err TpmLockout) /\
  (exists pub_bytes priv_bytes,
     st_log (snd r) =
       [EvLoadTokens Toy.dev; EvDerive (as_bytes pw2) salt; EvCreatePrimary;
        EvUnseal pub_bytes priv_bytes (skipn 32 (argon2_raw Toy.prims (as_bytes pw2) salt 64))]) /\
  tpm_failed_tries (w_tpm (st_world (snd r))) =
    (if (tpm_failed_tries t <? tpm_max_tries t)%nat then S (tpm_failed_tries t)
     else tpm_failed_tries t) /\
  st_world (snd r) =
    (if (tpm_failed_tries t <? tpm_max_tries t)%nat then set_tpm (da_fail t) w2 else w2).
Proof.
  cbv zeta.
  assert (H : run (setup Toy.prims (Toy.rs "correct horse") Toy.dev) Toy.world0
              = (Ok tt, snd (run (setup Toy.prims (Toy.rs "correct horse") Toy.dev) Toy.world0)))
    by (vm_compute; reflexivity).
  assert (Hdev : w_devices toy_world_locked !! Toy.dev
                 = w_devices (st_world (snd (run (setup Toy.prims (Toy.rs "correct horse") Toy.dev)
                                                 Toy.world0))) !! Toy.dev)
    by (vm_compute; reflexivity).
  assert (Hp : tpm_present (w_tpm toy_world_locked) = true) by (vm_compute; reflexivity).
  assert (Hseed : tpm_seed (w_tpm toy_world_locked) = tpm_seed (w_tpm Toy.world0))
    by (vm_compute; reflexivity).
  assert (Hlen : (N.of_nat (length (as_bytes (Toy.rs "wrong password"))) <= argon2_max_len)%N)
    by (apply N.leb_le; vm_compute; reflexivity).
  assert (Hpin : skipn 32 (argon2_raw Toy.prims (as_bytes (Toy.rs "wrong password"))
                            (rng_out (w_tpm Toy.world0) 64) 64)
                 <> skipn 32 (argon2_raw Toy.prims (as_bytes (Toy.rs "correct horse"))
                            (rng_out (w_tpm Toy.world0) 64) 64))
    by (intros Heq; vm_compute in Heq; discriminate Heq).
  split; [exact H|]. split; [exact Hdev|]. split; [exact Hp|]. split; [exact Hseed|].
  split; [exact Hlen|]. split; [exact Hpin|].
  exact (wrong_password_fails_at_unseal Toy.prims _ _ _ _ _ _ H Hdev Hp Hseed Hlen Hpin).
Defined.

(** The order of the toy [setup "correct horse"]. *)
Lemma setup_step_order_witness :
  let r := run (setup Toy.prims (Toy.rs "correct horse") Toy.dev) Toy.world0 in
  r = (Ok tt, snd r) /\
  map event_kind (st_log (snd r)) =
    [KCreatePrimary; KGetRandom; KDerive; KGetRandom; KHmac; KSeal; KFormat; KStoreTokens].
Proof.
  cbv zeta.
  assert (H : run (setup Toy.prims (Toy.rs "correct horse") Toy.dev) Toy.world0
              = (Ok tt, snd (run (setup Toy.prims (Toy.rs "correct horse") Toy.dev) Toy.world0)))
    by (vm_compute; reflexivity).
  split; [exact H|].
  exact (setup_step_order Toy.prims _ _ _ _ H).
Defined.

(** " correct horse\t\n" and "correct horse　" (ideographic space). *)
Lemma passphrase_surrounding_whitespace_ignored_witness :
  let core := Toy.rs "correct horse" in
  forallb is_whitespace [32%Z] = true /\ forallb is_whitespace [9%Z; 10%Z] = true /\
  forallb is_whitespace [] = true /\ forallb is_whitespace [12288%Z] = true /\
  read_password ([32%Z] ++ core ++ [9%Z; 10%Z]) = trim core /\
  read_password ([32%Z] ++ core ++ [9%Z; 10%Z]) = read_password ([] ++ core ++ [12288%Z]) /\
  (forall args, main Toy.prims args ([32%Z] ++ core ++ [9%Z; 10%Z])
                = main Toy.prims args ([] ++ core ++ [12288%Z])) /\
  (forall typed, main Toy.prims ["tpm2_luks"; "setup"; Toy.dev] typed
                 = setup Toy.prims (trim typed) Toy.dev) /\
  (forall typed, main Toy.prims ["tpm2_luks"; "unlock"; Toy.dev] typed
                 = (unlock Toy.prims (trim typed) Toy.dev ≫= fun _ => mret tt)).
Proof.
  cbv zeta.
  assert (H1 : forallb is_whitespace [32%Z] = true) by reflexivity.
  assert (H2 : forallb is_whitespace [9%Z; 10%Z] = true) by reflexivity.
  assert (H1' : forallb is_whitespace [] = true) by reflexivity.
  assert (H2' : forallb is_whitespace [12288%Z] = true) by reflexivity.
  split; [exact H1|]. split; [exact H2|]. split; [exact H1'|]. split; [exact H2'|].
  exact (passphrase_surrounding_whitespace_ignored Toy.prims "tpm2_luks" Toy.dev _ _ _ _ _
           H1 H2 H1' H2').
Defined.

(** A token whose "type" is not one the program writes, read from slot 1. *)
Lemma read_token_checks_only_key_description_witness :
  let v := JObj [("type", JStr "other"); ("key_description", JStr "AQ==")] in
  let h := mkLuks2 ∅ {[ 1 := v ]} in
  tokens h !! 1 = Some v /\
  ((exists d, read_token h 1 = Ok d) <->
     exists str d, json_index v "key_description" = JStr str /\ Base64.decode str = Some d) /\
  (read_token h 1 = Err MissingKeyDescription <->
     as_str (json_index v "key_description") = None) /\
  (read_token h 1 = Err Base64Invalid <->
     exists str, json_index v "key_description" = JStr str /\ Base64.decode str = None) /\
  (forall h' v', tokens h' !! 1 = Some v' ->
     json_index v' "key_description" = json_index v "key_description" ->
     read_token h' 1 = read_token h 1).
Proof.
  cbv zeta.
  assert (H : tokens (mkLuks2 ∅ {[ 1 := JObj [("type", JStr "other");
                                               ("key_description", JStr "AQ==")] ]}) !! 1
              = Some (JObj [("type", JStr "other"); ("key_description", JStr "AQ==")]))
    by (cbn; apply lookup_singleton_eq).
  split; [exact H|].
  exact (read_token_checks_only_key_description _ _ _ H).
Defined.

(* ================================================================== *)
(** ** What [unlock] and [setup] change *)

Lemma load_tokens_from_cases w dev :
  (exists abc, load_tokens_from w dev = Ok abc) \/ (exists e, load_tokens_from w dev = Err e).
Proof.
  unfold load_tokens_from.
  destruct (w_devices w !! dev) as [[h|]|]; eauto.
  destruct (read_token_cases h 1) as [[a Ha]|[e Ha]]; rewrite Ha; eauto.
  destruct (read_token_cases h 2) as [[b Hb]|[e Hb]]; rewrite Hb; eauto.
  destruct (read_token_cases h 3) as [[c Hc]|[e Hc]]; rewrite Hc; eauto.
Qed.

Lemma read_token_not_auth h id : read_token h id <> Err TpmAuthFail.
Proof.
  unfold read_token.
  destruct (tokens h !! id); [|discriminate].
  destruct (as_str _); [|discriminate].
  destruct (Base64.decode _); discriminate.
Qed.

Lemma load_tokens_from_not_auth w dev : load_tokens_from w dev <> Err TpmAuthFail.
Proof.
  unfold load_tokens_from.
  destruct (w_devices w !! dev) as [[h|]|]; try discriminate.
  pose proof (read_token_not_auth h 1). pose proof (read_token_not_auth h 2).
  pose proof (read_token_not_auth h 3).
  destruct (read_token h 1), (read_token h 2), (read_token h 3); congruence.
Qed.

Ltac effect_leaf :=
  cbn [fst snd st_world st_log log_add set_tpm set_active set_devices
       w_tpm w_devices w_active is_ok is_auth_fail];
  repeat split;
  try reflexivity;
  try (intros ? Hm; first [discriminate Hm | injection Hm as <-; reflexivity]);
  try (intros ? ? Hm; discriminate Hm);
  try (intros Hm; discriminate Hm).

Section Effects.
Context (P : prims).

(** Every run of [unlock]: the headers and the TPM's RNG are never
    touched; the dictionary-attack counter grows by one exactly on an
    authorization failure; the mapping "data" is added exactly on success,
    and only with a key some keyslot of the device accepts; the only panic is
    Argon2's, and it never exits. *)
Lemma unlock_effect pw dev s :
  let r := unlock P pw dev s in
  let w := st_world s in
  st_world (snd r) =
    mkWorld (if is_auth_fail (fst r) then da_fail (w_tpm w) else w_tpm w)
            (w_devices w)
            (if is_ok (fst r) then <[ "data" := dev ]> (w_active w) else w_active w) /\
  (forall k, fst r = Ok k ->
     exists h, w_devices w !! dev = Some (Some h) /\
       existsb (fun kv => bool_decide (kv.2 = k)) (map_to_list (keyslots h)) = true /\
       w_active w !! "data" = None) /\
  (is_auth_fail (fst r) = true -> (tpm_failed_tries (w_tpm w) < tpm_max_tries (w_tpm w))%nat) /\
  (forall m, fst r = Panic m -> m = "Argon2 hashing failed") /\
  (forall c, fst r <> Exit c).
Proof.
  destruct s as [[t d a] l]. cbv zeta. unfold unlock.
  rewrite bind_run, luks2_load_tpm_tokens_run. simpl_states.
  destruct (load_tokens_from_cases (mkWorld t d a) dev) as [[[[salt pubb] privb] Hl]|[e Hl]];
    rewrite Hl; cbn beta iota zeta.
  2:{ pose proof (load_tokens_from_not_auth (mkWorld t d a) dev) as Hna.
      destruct e; effect_leaf; congruence. }
  rewrite bind_run, derive_key_run. simpl_states.
  destruct (argon2_hash_password_into P _ _ 64) as [e|kdf] eqn:Ha; cbn beta iota zeta;
    [effect_leaf|].
  pose proof (argon2_ok_length P _ _ _ Ha) as Hlen.
  rewrite bind_run, split_at_run, Hlen. red_bool.
  rewrite bind_run, create_primary_run. simpl_states.
  destruct (tpm_present t); cbn beta iota zeta; [|effect_leaf].
  rewrite bind_run, unseal_secret_run. simpl_states.
  destruct (tpm_load P _ pubb privb) as [[auth secret]|]; cbn beta iota zeta; [|effect_leaf].
  destruct (tpm_max_tries t <=? tpm_failed_tries t)%nat eqn:Hda; cbn beta iota zeta;
    [effect_leaf|].
  destruct (bool_decide (drop 32 kdf = auth)); cbn beta iota zeta;
    [|effect_leaf; intros _; apply Nat.leb_gt; exact Hda].
  rewrite bind_run, compute_hmac_run. simpl_states.
  rewrite bind_run, luks_open_run. simpl_states.
  destruct (d !! dev) as [[h|]|] eqn:Hd; cbn beta iota zeta; [|effect_leaf..].
  destruct (a !! "data") eqn:Hact; cbn beta iota zeta; [effect_leaf|].
  destruct (existsb _ _) eqn:Hk; red_bool; [|effect_leaf].
  destruct (device_is_active a dev); cbn beta iota zeta; [effect_leaf|].
  cbn [fst snd st_world is_ok is_auth_fail mret M_ret ret]. split; [reflexivity|].
  split; [intros k [= <-]; eauto|].
  split; [intros Hm; discriminate Hm|].
  split; [intros ? Hm; discriminate Hm|intros ? Hm; discriminate Hm].
Qed.

(** Every run of [setup]: the active mappings and the dictionary-attack
    counter are never changed, no device but [dev] is touched, and [dev]'s
    header is left as it was unless [setup] succeeds; the only panic is
    Argon2's, and it never exits. *)
Lemma setup_effect pw dev s :
  let r := setup P pw dev s in
  let w := st_world s in
  w_active (st_world (snd r)) = w_active w /\
  tpm_failed_tries (w_tpm (st_world (snd r))) = tpm_failed_tries (w_tpm w) /\
  (is_ok (fst r) = false -> w_devices (st_world (snd r)) = w_devices w) /\
  (forall dev', dev' <> dev -> w_devices (st_world (snd r)) !! dev' = w_devices w !! dev') /\
  (forall m, fst r = Panic m -> m = "Argon2 hashing failed") /\
  (forall c, fst r <> Exit c).
Proof.
  destruct s as [[t d a] l]. cbv zeta. unfold setup.
  rewrite bind_run, create_primary_run. simpl_states.
  destruct (tpm_present t); cbn beta iota zeta; [|effect_leaf; intros; reflexivity].
  rewrite bind_run, tpm_random_bytes_run. simpl_states.
  rewrite bind_run, derive_key_run. simpl_states.
  destruct (argon2_hash_password_into P _ _ 64) as [e|kdf] eqn:Ha; cbn beta iota zeta;
    [effect_leaf; intros; reflexivity|].
  pose proof (argon2_ok_length P _ _ _ Ha) as Hlen.
  rewrite bind_run, split_at_run, Hlen. red_bool.
  rewrite bind_run, tpm_random_bytes_run. simpl_states.
  rewrite bind_run, compute_hmac_run. simpl_states.
  rewrite bind_run, seal_secret_run. simpl_states.
  cbn [rng_advance tpm_max_tries tpm_failed_tries].
  destruct (tpm_max_tries t <=? tpm_failed_tries t)%nat; cbn beta iota zeta;
    [effect_leaf; intros; reflexivity|].
  destruct (tpm_create P _ _ _) as [spub spriv]. cbn beta iota zeta.
  rewrite bind_run, luks_format_run. simpl_states.
  destruct (d !! dev) as [h0|] eqn:Hd; cbn beta iota zeta; [|effect_leaf; intros; reflexivity].
  destruct (device_is_active a dev); cbn beta iota zeta; [effect_leaf; intros; reflexivity|].
  rewrite bind_run, luks2_store_tpm_tokens_run. simpl_states. rewrite lookup_insert_eq.
  cbn beta iota zeta. unfold mret, M_ret, ret.
  effect_leaf.
  intros dev' Hne. rewrite !lookup_insert_ne by congruence. reflexivity.
Qed.

End Effects.

Lemma argon2_ok_salt_length P pwd salt out :
  argon2_hash_password_into P pwd salt 64 = inr out -> (8 <= length salt)%nat.
Proof.
  unfold argon2_hash_password_into, argon2_min_salt_len. intros H.
  destruct (N.ltb_spec (N.of_nat (length salt)) 8) as [E|E]; [|lia].
  revert H. repeat case_match; discriminate.
Qed.

Lemma argon2_short_salt P pwd salt :
  (length salt < 8)%nat -> exists e, argon2_hash_password_into P pwd salt 64 = inl e.
Proof.
  intros Hs. unfold argon2_hash_password_into.
  rewrite (proj2 (N.ltb_lt (N.of_nat (length salt)) argon2_min_salt_len))
    by (unfold argon2_min_salt_len; lia).
  repeat case_match; eauto.
Qed.

(* ================================================================== *)
(** ** Further properties of the program *)


(** Whatever its outcome, [setup] never changes the active mappings or the
    dictionary-attack counter, and it never touches a device other than its
    own. *)
Theorem setup_keeps_mappings_counter_and_other_devices (P : prims) (pw : rstr) (dev : string)
    (s : state) :
  let r := setup P pw dev s in
  w_active (st_world (snd r)) = w_active (st_world s) /\
  tpm_failed_tries (w_tpm (st_world (snd r))) = tpm_failed_tries (w_tpm (st_world s)) /\
  (forall dev', dev' <> dev -> w_devices (st_world (snd r)) !! dev' = w_devices (st_world s) !! dev').
Proof.
  destruct (setup_effect P pw dev s) as (H1 & H2 & _ & H4 & _).
  cbv zeta. auto.
Qed.

(** After a successful [setup], the device opens with the FinalKey it
    computed and with no other passphrase: under a name that is not yet an
    active mapping, every other key fails with [WrongKey], whatever the
    header held before; a name already in use fails with [AlreadyActive]
    before any key is tried. *)
Theorem setup_then_only_final_key_opens (P : prims) (pw : rstr) (dev : string)
    (w : world) (s1 : state) :
  run (setup P pw dev) w = (Ok tt, s1) ->
  exists final, hmac_outputs (st_log s1) = [final] /\
    forall (k : list byte) (name : string) (s : state), st_world s = st_world s1 ->
      fst (luks_open dev k name s) =
        match w_active (st_world s1) !! name with
        | Some _ => Err AlreadyActive
        | None => if bool_decide (final = k) then Ok tt else Err WrongKey
        end.
Proof.
  intros Hs. unfold run in Hs.
  apply setup_ok_inv in Hs. cbn [st_world st_log] in Hs.
  destruct Hs as (kdf & h0 & Hp & Ha & Hlen & Hd & Hact & Hw & Hl).
  cbv zeta in Hw, Hl.
  eexists. split; [rewrite Hl; reflexivity|].
  intros k name s Hs. rewrite luks_open_run. cbv zeta. rewrite Hs, Hw.
  cbn [w_devices w_active]. rewrite lookup_insert_eq. cbn [keyslots].
  destruct (w_active w !! name); [reflexivity|]. cbn beta iota zeta.
  rewrite insert_empty, map_to_list_singleton. cbn [existsb fst snd].
  destruct (bool_decide _); cbn [negb orb]; [|reflexivity].
  rewrite Hact. reflexivity.
Qed.

(** No run of [unlock] writes a device header.  The dictionary-attack
    counter grows by one exactly when it fails with an authorization
    failure, and the mapping "data" is added exactly when it succeeds. *)
Theorem unlock_never_writes_headers (P : prims) (pw : rstr) (dev : string) (s : state) :
  let r := unlock P pw dev s in
  let w := st_world s in
  w_devices (st_world (snd r)) = w_devices w /\
  tpm_failed_tries (w_tpm (st_world (snd r))) =
    (if is_auth_fail (fst r) then S (tpm_failed_tries (w_tpm w)) else tpm_failed_tries (w_tpm w)) /\
  w_active (st_world (snd r)) =
    (if is_ok (fst r) then <[ "data" := dev ]> (w_active w) else w_active w).
Proof.
  destruct (unlock_effect P pw dev s) as (Hw & _).
  cbv zeta in *. rewrite Hw. cbn [w_devices w_tpm w_active].
  split; [reflexivity|]. split; [|reflexivity].
  destruct (is_auth_fail _); reflexivity.
Qed.

(** When the LUKS2 tokens cannot be read, [unlock] stops with that error
    right after reading them: no key derivation, no TPM call (so no lockout
    credit is consumed), and the world is unchanged. *)
Theorem unlock_stops_on_unreadable_header (P : prims) (pw : rstr) (dev : string)
    (s : state) (e : error) :
  fst (luks2_load_tpm_tokens dev s) = Err e ->
  unlock P pw dev s = (Err e, log_add s (EvLoadTokens dev)).
Proof.
  rewrite luks2_load_tpm_tokens_run. cbn [fst]. intros H.
  unfold unlock. rewrite bind_run, luks2_load_tpm_tokens_run, H. reflexivity.
Qed.

(** In dictionary-attack lockout, [unlock] never succeeds, whatever the
    password, and it consumes no further lockout credit: the TPM state is
    unchanged. *)
Theorem unlock_in_lockout_never_succeeds (P : prims) (pw : rstr) (dev : string) (s : state) :
  (tpm_max_tries (w_tpm (st_world s)) <= tpm_failed_tries (w_tpm (st_world s)))%nat ->
  let r := unlock P pw dev s in
  is_ok (fst r) = false /\ is_auth_fail (fst r) = false /\
  w_tpm (st_world (snd r)) = w_tpm (st_world s).
Proof.
  intros Hl. cbv zeta.
  destruct (unlock_effect P pw dev s) as (Hw & _ & Ha & _).
  cbv zeta in Hw, Ha.
  assert (Hn : is_ok (fst (unlock P pw dev s)) = false).
  { destruct (unlock P pw dev s) as [o s'] eqn:E. destruct o; try reflexivity.
    apply unlock_ok_inv in E. destruct E as (_ & _ & _ & _ & _ & _ & _ & _ & _ & Hda & _).
    lia. }
  assert (Hf : is_auth_fail (fst (unlock P pw dev s)) = false).
  { destruct (is_auth_fail _); [|reflexivity]. specialize (Ha eq_refl). lia. }
  split; [exact Hn|]. split; [exact Hf|].
  rewrite Hw, Hf. reflexivity.
Qed.

(** The key a successful [unlock] returns is the passphrase of one of the
    device's keyslots, and the device is then mapped as "data" (a name that
    was free before). *)
Theorem unlock_result_is_keyslot_passphrase (P : prims) (pw : rstr) (dev : string)
    (s : state) (k : list byte) :
  fst (unlock P pw dev s) = Ok k ->
  exists h i, w_devices (st_world s) !! dev = Some (Some h) /\ keyslots h !! i = Some k /\
    w_active (st_world s) !! "data" = None /\
    w_active (st_world (snd (unlock P pw dev s))) !! "data" = Some dev.
Proof.
  intros Hk.
  destruct (unlock_effect P pw dev s) as (Hw & Hks & _).
  cbv zeta in Hw, Hks.
  destruct (Hks k Hk) as (h & Hd & Hex & Hfree).
  apply existsb_exists in Hex as ([i v] & Hin & Hv). cbn in Hv.
  apply bool_decide_eq_true_1 in Hv. subst v.
  apply list_elem_of_In, elem_of_map_to_list in Hin.
  exists h, i. split; [exact Hd|]. split; [exact Hin|]. split; [exact Hfree|].
  rewrite Hw, Hk. apply lookup_insert_eq.
Qed.

(** Running [unlock] again after it has succeeded fails with
    [AlreadyActive] (the name "data" is taken); it unseals the Secret with
    the right PIN, so it consumes no lockout credit and changes neither the
    TPM nor the headers. *)
Theorem unlock_twice_already_active (P : prims) (pw : rstr) (dev : string)
    (s s1 : state) (k : list byte) :
  unlock P pw dev s = (Ok k, s1) ->
  let r := unlock P pw dev s1 in
  fst r = Err AlreadyActive /\
  w_tpm (st_world (snd r)) = w_tpm (st_world s1) /\
  w_devices (st_world (snd r)) = w_devices (st_world s1).
Proof.
  intros Hu. cbv zeta.
  destruct (unlock_effect P pw dev s) as (_ & Hks & _).
  cbv zeta in Hks. rewrite Hu in Hks. cbn [fst] in Hks.
  destruct (Hks k eq_refl) as (h & Hd & Hex & _).
  apply unlock_ok_inv in Hu. cbv zeta in Hu.
  destruct Hu as (salt & pubb & privb & kdf & secret & Hl & Ha & Hlen & Hp & Hda &
                  Hld & Hk & Hdata & Hw & Hlog).
  destruct s1 as [w1 l1]. cbn [st_world] in Hw. subst w1.
  set (s1 := mkState (set_active (<[ "data" := dev ]> (w_active (st_world s))) (st_world s)) l1).
  assert (Hres : fst (unlock P pw dev s1) = Err AlreadyActive).
  { unfold unlock, s1. rewrite bind_run, luks2_load_tpm_tokens_run. simpl_states.
    change (load_tokens_from (set_active (<[ "data" := dev ]> (w_active (st_world s)))
                                         (st_world s)) dev)
      with (load_tokens_from (st_world s) dev).
    rewrite Hl. cbn beta iota zeta.
    rewrite bind_run, derive_key_run, Ha. cbn beta iota zeta.
    rewrite bind_run, split_at_run, Hlen. red_bool.
    rewrite bind_run, create_primary_run. simpl_states. rewrite Hp. cbn beta iota zeta.
    rewrite bind_run, unseal_secret_run. simpl_states. rewrite Hld. cbn beta iota zeta.
    rewrite (proj2 (Nat.leb_gt _ _) Hda). red_bool.
    rewrite bool_decide_eq_true_2 by reflexivity. cbn beta iota zeta.
    rewrite bind_run, compute_hmac_run. simpl_states. rewrite <- Hk.
    rewrite bind_run, luks_open_run. simpl_states.
    rewrite Hd. cbn beta iota zeta.
    rewrite lookup_insert_eq. reflexivity. }
  destruct (unlock_effect P pw dev s1) as (Hw1 & _).
  cbv zeta in Hw1. rewrite Hres in Hw1. cbn [is_ok is_auth_fail] in Hw1.
  split; [exact Hres|]. rewrite Hw1. split; reflexivity.
Qed.

(** In a successful [setup], the Salt stored in token 1 and the sealed
    Secret each have min(64, n) bytes, where n is the most bytes one
    TPM2_GetRandom returns; that is at least 8 bytes. *)
Theorem setup_salt_and_secret_lengths (P : prims) (pw : rstr) (dev : string)
    (w : world) (s1 : state) :
  run (setup P pw dev) w = (Ok tt, s1) ->
  let m := Nat.min 64 (tpm_max_random (w_tpm w)) in
  (8 <= m)%nat /\
  exists h salt secret pin,
    w_devices (st_world s1) !! dev = Some (Some h) /\ read_token h 1 = Ok salt /\
    length salt = m /\ In (EvSeal secret pin) (st_log s1) /\ length secret = m.
Proof.
  intros Hs. unfold run in Hs.
  apply setup_ok_inv in Hs. cbn [st_world st_log] in Hs.
  destruct Hs as (kdf & h0 & Hp & Ha & Hlen & Hd & Hact & Hw & Hl).
  cbv zeta in *.
  assert (Hrl : forall t, length (rng_out t 64) = Nat.min 64 (tpm_max_random t)).
  { intros t. unfold rng_out. rewrite length_map, length_seq. reflexivity. }
  pose proof (argon2_ok_salt_length _ _ _ _ Ha) as H8. rewrite Hrl in H8.
  split; [exact H8|].
  eexists _, _, _, _. split; [rewrite Hw; apply lookup_insert_eq|].
  split; [eapply read_token_record; cbn [tokens]; apply (proj1 (stored_tokens_lookup _ _ _ _))|].
  split; [apply Hrl|].
  split; [rewrite Hl; apply in_or_app; right; cbn [In]; do 5 right; left; reflexivity|].
  rewrite Hrl. reflexivity.
Qed.

(** When the TPM returns fewer than 8 bytes per TPM2_GetRandom, [setup]
    panics in the key derivation (the salt is too short for Argon2) and no
    device header is touched. *)
Theorem setup_panics_on_short_tpm_random (P : prims) (pw : rstr) (dev : string) (s : state) :
  tpm_present (w_tpm (st_world s)) = true ->
  (tpm_max_random (w_tpm (st_world s)) < 8)%nat ->
  let r := setup P pw dev s in
  fst r = Panic "Argon2 hashing failed" /\ w_devices (st_world (snd r)) = w_devices (st_world s).
Proof.
  intros Hp Hm. cbv zeta.
  assert (Hr : fst (setup P pw dev s) = Panic "Argon2 hashing failed").
  { unfold setup.
    rewrite bind_run, create_primary_run. simpl_states. rewrite Hp. cbn beta iota zeta.
    rewrite bind_run, tpm_random_bytes_run. simpl_states.
    rewrite bind_run, derive_key_run. simpl_states.
    destruct (argon2_short_salt P (as_bytes pw) (rng_out (w_tpm (st_world s)) 64)) as [e He].
    { unfold rng_out. rewrite length_map, length_seq. lia. }
    rewrite He. reflexivity. }
  split; [exact Hr|].
  destruct (setup_effect P pw dev s) as (_ & _ & H3 & _).
  apply H3. rewrite Hr. reflexivity.
Qed.

(** In dictionary-attack lockout, [setup] never succeeds and never formats
    the device: the headers are left as they were.  When the TPM is present
    and Argon2 accepts the salt, it fails with [TpmLockout], at the
    TPM2_Create of [seal_secret], under the dictionary-attack protected
    primary key. *)
Theorem setup_in_lockout_formats_nothing (P : prims) (pw : rstr) (dev : string) (s : state) :
  (tpm_max_tries (w_tpm (st_world s)) <= tpm_failed_tries (w_tpm (st_world s)))%nat ->
  let r := setup P pw dev s in
  is_ok (fst r) = false /\
  w_devices (st_world (snd r)) = w_devices (st_world s) /\
  (tpm_present (w_tpm (st_world s)) = true ->
   forall kdf, argon2_hash_password_into P (as_bytes pw) (rng_out (w_tpm (st_world s)) 64) 64
               = inr kdf ->
   fst r = Err TpmLockout).
Proof.
  intros Hl. cbv zeta.
  assert (Hn : is_ok (fst (setup P pw dev s)) = false).
  { destruct (setup P pw dev s) as [o s'] eqn:E. destruct o as [[]| | |]; try reflexivity.
    apply setup_ok_not_locked in E. lia. }
  split; [exact Hn|].
  destruct (setup_effect P pw dev s) as (_ & _ & H3 & _).
  split; [exact (H3 Hn)|].
  intros Hp kdf Ha. unfold setup.
  rewrite bind_run, create_primary_run. simpl_states. rewrite Hp. cbn beta iota zeta.
  rewrite bind_run, tpm_random_bytes_run. simpl_states.
  rewrite bind_run, derive_key_run. simpl_states. rewrite Ha. cbn beta iota zeta.
  rewrite bind_run, split_at_run, (argon2_ok_length _ _ _ _ Ha). red_bool.
  rewrite bind_run, tpm_random_bytes_run. simpl_states.
  rewrite bind_run, compute_hmac_run. simpl_states.
  rewrite bind_run, seal_secret_run. simpl_states.
  cbn [rng_advance tpm_max_tries tpm_failed_tries].
  rewrite (proj2 (Nat.leb_le _ _) Hl). reflexivity.
Qed.

(* ------------------------------------------------------------------ *)
(** *** Instances of the further properties on the toy primitives *)

Definition toy_tpm_short_rng : tpm :=
  mkTpm true 7 (tpm_rng Toy.tpm0) 0 4 0 3.

Definition toy_header : luks2 :=
  mkLuks2 {[ 0 := [Byte.x01] ]} {[ 5 := token_record "user.other" [Byte.x02] ]}.

Definition toy_world_plain : world :=
  mkWorld Toy.tpm0 {[ Toy.dev := Some toy_header ]} ∅.

Definition ok_value {A} (d : A) (o : outcome A) : A :=
  match o with Ok a => a | _ => d end.


Lemma setup_then_only_final_key_opens_witness :
  let r := run (setup Toy.prims (Toy.rs "correct horse") Toy.dev) Toy.world0 in
  r = (Ok tt, snd r) /\
  exists final, hmac_outputs (st_log (snd r)) = [final] /\
    forall (k : list byte) (name : string) (s : state), st_world s = st_world (snd r) ->
      fst (luks_open Toy.dev k name s) =
        match w_active (st_world (snd r)) !! name with
        | Some _ => Err AlreadyActive
        | None => if bool_decide (final = k) then Ok tt else Err WrongKey
        end.
Proof.
  cbv zeta.
  assert (H : run (setup Toy.prims (Toy.rs "correct horse") Toy.dev) Toy.world0
              = (Ok tt, snd (run (setup Toy.prims (Toy.rs "correct horse") Toy.dev) Toy.world0)))
    by (vm_compute; reflexivity).
  split; [exact H|].
  exact (setup_then_only_final_key_opens Toy.prims _ _ _ _ H).
Defined.

Lemma unlock_stops_on_unreadable_header_witness :
  let s := mkState toy_world_plain [] in
  fst (luks2_load_tpm_tokens Toy.dev s) = Err TokenMissing /\
  unlock Toy.prims (Toy.rs "correct horse") Toy.dev s =
    (Err TokenMissing, log_add s (EvLoadTokens Toy.dev)).
Proof.
  cbv zeta.
  assert (H : fst (luks2_load_tpm_tokens Toy.dev (mkState toy_world_plain [])) = Err TokenMissing)
    by (vm_compute; reflexivity).
  split; [exact H|].
  exact (unlock_stops_on_unreadable_header Toy.prims _ _ _ _ H).
Defined.

Lemma unlock_in_lockout_never_succeeds_witness :
  let s := mkState toy_world_locked [] in
  (tpm_max_tries (w_tpm (st_world s)) <= tpm_failed_tries (w_tpm (st_world s)))%nat /\
  let r := unlock Toy.prims (Toy.rs "correct horse") Toy.dev s in
  is_ok (fst r) = false /\ is_auth_fail (fst r) = false /\
  w_tpm (st_world (snd r)) = w_tpm (st_world s).
Proof.
  cbv zeta.
  assert (H : (tpm_max_tries (w_tpm (st_world (mkState toy_world_locked [])))
               <= tpm_failed_tries (w_tpm (st_world (mkState toy_world_locked []))))%nat)
    by (apply Nat.leb_le; vm_compute; reflexivity).
  split; [exact H|].
  exact (unlock_in_lockout_never_succeeds Toy.prims _ _ _ H).
Defined.

Lemma unlock_result_is_keyslot_passphrase_witness :
  let s := mkState toy_world_setup [] in
  let u := unlock Toy.prims (Toy.rs "correct horse") Toy.dev s in
  let k := ok_value [] (fst u) in
  fst u = Ok k /\
  exists h i, w_devices (st_world s) !! Toy.dev = Some (Some h) /\ keyslots h !! i = Some k /\
    w_active (st_world s) !! "data" = None /\
    w_active (st_world (snd u)) !! "data" = Some Toy.dev.
Proof.
  cbv zeta.
  assert (H : fst (unlock Toy.prims (Toy.rs "correct horse") Toy.dev (mkState toy_world_setup []))
              = Ok (ok_value [] (fst (unlock Toy.prims (Toy.rs "correct horse") Toy.dev
                                        (mkState toy_world_setup [])))))
    by (vm_compute; reflexivity).
  split; [exact H|].
  exact (unlock_result_is_keyslot_passphrase Toy.prims _ _ _ _ H).
Defined.

Lemma unlock_twice_already_active_witness :
  let s := mkState toy_world_setup [] in
  let u := unlock Toy.prims (Toy.rs "correct horse") Toy.dev s in
  u = (Ok (ok_value [] (fst u)), snd u) /\
  let r := unlock Toy.prims (Toy.rs "correct horse") Toy.dev (snd u) in
  fst r = Err AlreadyActive /\
  w_tpm (st_world (snd r)) = w_tpm (st_world (snd u)) /\
  w_devices (st_world (snd r)) = w_devices (st_world (snd u)).
Proof.
  cbv zeta.
  assert (H : unlock Toy.prims (Toy.rs "correct horse") Toy.dev (mkState toy_world_setup [])
              = (Ok (ok_value [] (fst (unlock Toy.prims (Toy.rs "correct horse") Toy.dev
                                         (mkState toy_world_setup [])))),
                 snd (unlock Toy.prims (Toy.rs "correct horse") Toy.dev (mkState toy_world_setup []))))
    by (vm_compute; reflexivity).
  split; [exact H|].
  exact (unlock_twice_already_active Toy.prims _ _ _ _ _ H).
Defined.

Lemma setup_salt_and_secret_lengths_witness :
  let r := run (setup Toy.prims (Toy.rs "correct horse") Toy.dev) Toy.world0 in
  r = (Ok tt, snd r) /\
  let m := Nat.min 64 (tpm_max_random (w_tpm Toy.world0)) in
  (8 <= m)%nat /\
  exists h salt secret pin,
    w_devices (st_world (snd r)) !! Toy.dev = Some (Some h) /\ read_token h 1 = Ok salt /\
    length salt = m /\ In (EvSeal secret pin) (st_log (snd r)) /\ length secret = m.
Proof.
  cbv zeta.
  assert (H : run (setup Toy.prims (Toy.rs "correct horse") Toy.dev) Toy.world0
              = (Ok tt, snd (run (setup Toy.prims (Toy.rs "correct horse") Toy.dev) Toy.world0)))
    by (vm_compute; reflexivity).
  split; [exact H|].
  exact (setup_salt_and_secret_lengths Toy.prims _ _ _ _ H).
Defined.

Lemma setup_panics_on_short_tpm_random_witness :
  let s := mkState (mkWorld toy_tpm_short_rng {[ Toy.dev := None ]} ∅) [] in
  tpm_present (w_tpm (st_world s)) = true /\
  (tpm_max_random (w_tpm (st_world s)) < 8)%nat /\
  let r := setup Toy.prims (Toy.rs "correct horse") Toy.dev s in
  fst r = Panic "Argon2 hashing failed" /\ w_devices (st_world (snd r)) = w_devices (st_world s).
Proof.
  cbv zeta.
  assert (H1 : tpm_present (w_tpm (st_world
                 (mkState (mkWorld toy_tpm_short_rng {[ Toy.dev := None ]} ∅) []))) = true)
    by reflexivity.
  assert (H2 : (tpm_max_random (w_tpm (st_world
                 (mkState (mkWorld toy_tpm_short_rng {[ Toy.dev := None ]} ∅) []))) < 8)%nat)
    by (apply Nat.ltb_lt; reflexivity).
  split; [exact H1|]. split; [exact H2|].
  exact (setup_panics_on_short_tpm_random Toy.prims _ _ _ H1 H2).
Defined.

Lemma setup_in_lockout_formats_nothing_witness :
  let s := mkState toy_world_locked [] in
  (tpm_max_tries (w_tpm (st_world s)) <= tpm_failed_tries (w_tpm (st_world s)))%nat /\
  let r := setup Toy.prims (Toy.rs "correct horse") Toy.dev s in
  is_ok (fst r) = false /\
  w_devices (st_world (snd r)) = w_devices (st_world s) /\
  (tpm_present (w_tpm (st_world s)) = true ->
   forall kdf, argon2_hash_password_into Toy.prims (as_bytes (Toy.rs "correct horse"))
                 (rng_out (w_tpm (st_world s)) 64) 64 = inr kdf ->
   fst r = Err TpmLockout).
Proof.
  cbv zeta.
  assert (H : (tpm_max_tries (w_tpm (st_world (mkState toy_world_locked [])))
               <= tpm_failed_tries (w_tpm (st_world (mkState toy_world_locked []))))%nat)
    by (apply Nat.leb_le; vm_compute; reflexivity).
  split; [exact H|].
  exact (setup_in_lockout_formats_nothing Toy.prims _ _ _ H).
Defined.
